(** * disk_util.hpp: device classification and directory locking

    A shallow embedding of [src/disk_util.hpp] of chiapos: the namespace
    [DiskUtil] (DeviceNameOfDirectory, IsParallelWritingPreferredForDevice,
    ShouldLock) and the class [DirectoryLock] (constructor, destructor, Lock,
    Unlock, LockDirectory, UnlockDirectory).

    The code talks to the operating system only: stat, realpath, an ifstream,
    open, flock, close, a sleep and the two console streams. The operating
    system is an oracle that answers each call from the history of the calls
    made so far, and every call is appended to that history, so that a run of
    the code is a function from the oracle to a result and a trace. *)

From Stdlib Require Import ZArith NArith List String Ascii Bool Lia DecimalString.
From Stdlib Require DecimalPos DecimalN.
Import ListNotations.

#[local] Open Scope string_scope.
#[local] Open Scope Z_scope.

(** ** Strings as the code sees them *)

Module CString.

Definition NUL : ascii := "000"%char.
Definition LF : ascii := "010"%char.

(** [s.c_str()] read back as a C string: the bytes before the first NUL. *)
Fixpoint c_str (s : string) : string :=
  match s with
  | EmptyString => EmptyString
  | String c r => if Ascii.eqb c NUL then EmptyString else String c (c_str r)
  end.

(** [std::getline(file, line)] on a stream that still holds [content]: the
    characters before the first newline, the newline itself is dropped. *)
Fixpoint getline (content : string) : string :=
  match content with
  | EmptyString => EmptyString
  | String c r => if Ascii.eqb c LF then EmptyString else String c (getline r)
  end.

(** [line.empty()] *)
Definition empty (s : string) : bool :=
  match s with EmptyString => true | String _ _ => false end.

(** [line.front()], read only behind a [!line.empty()] test. *)
Definition front (s : string) : ascii :=
  match s with EmptyString => NUL | String c _ => c end.

(** [os << n] for an unsigned integer: its decimal digits. *)
Definition decimal (n : N) : string := NilZero.string_of_uint (N.to_uint n).

(** A string without a NUL character, the only strings a [char *] gives. *)
Fixpoint no_nul (s : string) : bool :=
  match s with
  | EmptyString => true
  | String c r => negb (Ascii.eqb c NUL) && no_nul r
  end.

(** An absolute pathname, which is what [realpath] answers when it
    succeeds. *)
Definition absolute (p : string) : bool := prefix "/" p.

End CString.
Import CString.

(** ** The operating system *)

Definition errno_t := Z.

(** Linux values of the constants the code names. *)
Definition O_RDONLY : Z := 0.
Definition O_NOCTTY : Z := 256.
Definition LOCK_EX : Z := 2.
Definition LOCK_NB : Z := 4.
Definition LOCK_UN : Z := 8.
Definition EWOULDBLOCK : errno_t := 11.

(** One entry of the history: a call with its arguments and the answer it
    got. A failed call carries the errno it left ([inl]); [open] answers a
    descriptor, which is never negative. *)
Inductive event : Type :=
| EvStat (path : string) (r : errno_t + Z)
| EvRealpath (path : string) (r : errno_t + string)
| EvIfstreamOpen (path : string) (r : errno_t + string)
| EvOpen (path : string) (flags : Z) (r : errno_t + N)
| EvFlock (fd : Z) (operation : Z) (r : errno_t + unit)
| EvClose (fd : Z) (r : errno_t + unit)
| EvSleep (seconds : Z)
| EvCerr (msg : string)
| EvCout (msg : string).

Definition trace := list event.

(** The host: what each call answers after a given history, and the pure
    helpers of the C library ([major], [minor], [strerror]). [os_stat]
    answers the [st_dev] of the path; [os_ifstream] answers the characters
    the stream yields once it is open. *)
Record OS : Type := {
  os_stat : trace -> string -> errno_t + Z;
  os_realpath : trace -> string -> errno_t + string;
  os_ifstream : trace -> string -> errno_t + string;
  os_open : trace -> string -> Z -> errno_t + N;
  os_flock : trace -> Z -> Z -> errno_t + unit;
  os_close : trace -> Z -> errno_t + unit;
  major : Z -> N;
  minor : Z -> N;
  strerror : errno_t -> string
}.

(** Code that runs against the host threads the history. *)
Definition IO (A : Type) : Type := trace -> A * trace.

Definition ret {A : Type} (a : A) : IO A := fun t => (a, t).

Definition bind {A B : Type} (m : IO A) (k : A -> IO B) : IO B :=
  fun t => let (a, t') := m t in k a t'.

Declare Scope io_scope.
Delimit Scope io_scope with io.
Notation "x <- m ;; k" := (bind m (fun x => k))
  (at level 100, m at next level, right associativity) : io_scope.
Notation "m ;;; k" := (bind m (fun _ => k))
  (at level 100, right associativity) : io_scope.

Definition emit (e : event) : IO unit := fun t => (tt, (t ++ [e])%list).

Section Syscalls.

Variable os : OS.

(** Each wrapper asks the host at the current history and records the call.
    A [std::string] reaches the host through [c_str()]. *)
Definition sys_stat (path : string) : IO (errno_t + Z) :=
  fun t => let r := os_stat os t (c_str path) in
           (r, (t ++ [EvStat (c_str path) r])%list).

Definition sys_realpath (path : string) : IO (errno_t + string) :=
  fun t => let r := os_realpath os t (c_str path) in
           (r, (t ++ [EvRealpath (c_str path) r])%list).

(** One entry stands for the whole life of the input stream: [file.open],
    the characters [getline] reads from it, and [file.close()]. *)
Definition ifstream_open (filename : string) : IO (errno_t + string) :=
  fun t => let r := os_ifstream os t (c_str filename) in
           (r, (t ++ [EvIfstreamOpen (c_str filename) r])%list).

Definition sys_open (path : string) (flags : Z) : IO (errno_t + N) :=
  fun t => let r := os_open os t (c_str path) flags in
           (r, (t ++ [EvOpen (c_str path) flags r])%list).

Definition sys_flock (fd operation : Z) : IO (errno_t + unit) :=
  fun t => let r := os_flock os t fd operation in
           (r, (t ++ [EvFlock fd operation r])%list).

Definition sys_close (fd : Z) : IO (errno_t + unit) :=
  fun t => let r := os_close os t fd in (r, (t ++ [EvClose fd r])%list).

Definition sleep_seconds (n : Z) : IO unit := emit (EvSleep n).
Definition cerr (msg : string) : IO unit := emit (EvCerr msg).
Definition cout (msg : string) : IO unit := emit (EvCout msg).

End Syscalls.

(** ** namespace DiskUtil *)

Module DiskUtil.

(** [std::runtime_error] with its [what()]. *)
Inductive exn : Type := runtime_error (what : string).

(** The build the preprocessor selects. *)
Inductive platform : Type := Linux | Apple | Win32.

Section WithOS.

Variable os : OS.

#[local] Open Scope io_scope.

(** The sysfs entry of a device number, [os.str()] of lines 51-53. *)
Definition block_entry (st_dev : Z) : string :=
  "/sys/dev/block/" ++ decimal (major os st_dev) ++ ":"
    ++ decimal (minor os st_dev).

Definition DeviceNameOfDirectory (dir : string) : IO (exn + string) :=
  s <- sys_stat os dir ;;
  match s with
  | inl e =>
      ret (inl (runtime_error
             ("Unable to find device name for dir " ++ dir ++ ": "
                ++ strerror os e)))
  | inr st_dev =>
      let block := block_entry st_dev in
      resolved <- sys_realpath os block ;;
      match resolved with
      | inl e =>
          ret (inl (runtime_error
                 ("Unable to find device name for " ++ block ++ ": "
                    ++ strerror os e)))
      | inr p => ret (inr (c_str p))
      end
  end.

(** The attribute file of a device, [os.str()] of lines 73-75. *)
Definition rotational_filename (dev : string) : string :=
  "/sys/block/" ++ dev ++ "/queue/rotational".

Definition IsParallelWritingPreferredForDevice (dev : string)
  : IO (exn + bool) :=
  let filename := rotational_filename dev in
  file <- ifstream_open os filename ;;
  match file with
  | inl e =>
      ret (inl (runtime_error
             ("Unable to open " ++ filename ++ " for reading: "
                ++ strerror os e)))
  | inr content =>
      let line := getline content in
      let is_rotational :=
        if negb (empty line) && Ascii.eqb (front line) "0"%char
        then 0 else 1 in
      ret (inr (is_rotational =? 0))
  end.

Definition ShouldLock (p : platform) (dir : string) : IO (exn + bool) :=
  match p with
  | Apple | Win32 => ret (inr false)
  | Linux =>
      device_name <- DeviceNameOfDirectory dir ;;
      match device_name with
      | inl e => ret (inl e)
      | inr device_name =>
          is_parallel <- IsParallelWritingPreferredForDevice (c_str device_name) ;;
          match is_parallel with
          | inl e => ret (inl e)
          | inr is_parallel => ret (inr (negb is_parallel))
          end
      end
  end.

End WithOS.

End DiskUtil.

(** ** class DirectoryLock *)

Module DirectoryLock.

(** The two data members; [fd_] is a C [int], [-1] when nothing is held. *)
Record t : Type := { fd_ : Z; dirname_ : string }.

Definition endl : string := String LF EmptyString.

Section WithOS.

Variable os : OS.

#[local] Open Scope io_scope.

(** The [while (0 != flock(...))] loop of [LockDirectory]. The loop has no
    exit but a granted lock, so the model counts the attempts it may
    still make: [None] when [fuel] attempts were all refused. *)
Fixpoint flock_retry (fuel : nat) (dir_fd : Z) (dirname : string)
  (h : trace) : option trace :=
  match fuel with
  | O => None
  | S fuel' =>
      let (r, h1) := sys_flock os dir_fd (Z.lor LOCK_EX LOCK_NB) h in
      match r with
      | inr _ => Some h1
      | inl e =>
          let (_, h2) :=
            (if EWOULDBLOCK =? e
             then cout ("Directory locked, waiting (retrying in 1 minute): "
                          ++ dirname ++ endl)
             else cerr ("Unable to lock directory (retrying in 1 minute): "
                          ++ ". Error: " ++ strerror os e ++ endl)) h1 in
          let (_, h3) := sleep_seconds (1 * 60) h2 in
          flock_retry fuel' dir_fd dirname h3
      end
  end.

Definition LockDirectory (fuel : nat) (dirname : string) (h : trace)
  : option (Z * trace) :=
  let (r, h1) := sys_open os dirname (Z.lor O_RDONLY O_NOCTTY) h in
  match r with
  | inl e =>
      let (_, h2) :=
        cerr ("Unable to open directory for locking: " ++ dirname
                ++ ". Error: " ++ strerror os e ++ endl) h1 in
      Some (-1, h2)
  | inr fd =>
      let dir_fd := Z.of_N fd in
      match flock_retry fuel dir_fd dirname h1 with
      | Some h2 => Some (dir_fd, h2)
      | None => None
      end
  end.

Definition UnlockDirectory (dir_fd : Z) (dirname : string) : IO bool :=
  r <- sys_flock os dir_fd LOCK_UN ;;
  match r with
  | inl e =>
      cerr ("Failed to unlock the directory: " ++ dirname
              ++ ". Error: " ++ strerror os e ++ endl) ;;;
      ret false
  | inr _ =>
      c <- sys_close os dir_fd ;;
      match c with
      | inl e =>
          cerr ("Failed to close the directory during unlocking: "
                  ++ dirname ++ ". Error: " ++ strerror os e ++ endl) ;;;
          ret false
      | inr _ => ret true
      end
  end.

Definition Lock (fuel : nat) (d : t) (h : trace) : option (bool * t * trace) :=
  if fd_ d =? -1 then
    match LockDirectory fuel (dirname_ d) h with
    | Some (fd, h') =>
        let d' := {| fd_ := fd; dirname_ := dirname_ d |} in
        Some (negb (fd_ d' =? -1), d', h')
    | None => None
    end
  else Some (negb (fd_ d =? -1), d, h).

Definition Unlock (d : t) (h : trace) : bool * t * trace :=
  if fd_ d =? -1 then (false, d, h)
  else
    let (ok, h') := UnlockDirectory (fd_ d) (dirname_ d) h in
    if negb ok then (false, d, h')
    else (true, {| fd_ := -1; dirname_ := dirname_ d |}, h').

(** [DirectoryLock(dirname, lock)]: [fd_] starts from its member
    initialiser [-1]. *)
Definition construct (fuel : nat) (dirname : string) (lock : bool)
  (h : trace) : option (t * trace) :=
  let d := {| fd_ := -1; dirname_ := dirname |} in
  if lock then
    match Lock fuel d h with
    | Some (_, d', h') => Some (d', h')
    | None => None
    end
  else Some (d, h).

(** [~DirectoryLock()]: the members as the destructor body leaves them. *)
Definition destroy (d : t) (h : trace) : t * trace :=
  let '(_, d', h') := Unlock d h in (d', h').

End WithOS.

(** The descriptors a history leaves open: those [open] answered and no
    [close] has released since. A [close] that fails releases nothing. *)
Fixpoint remove_fd (fd : Z) (l : list Z) : list Z :=
  match l with
  | [] => []
  | x :: r => if x =? fd then r else x :: remove_fd fd r
  end.

Definition held_step (l : list Z) (e : event) : list Z :=
  match e with
  | EvOpen _ _ (inr fd) => Z.of_N fd :: l
  | EvClose fd (inr _) => remove_fd fd l
  | _ => l
  end.

Definition held (h : trace) : list Z := fold_left held_step h [].

(** The two states of the class, over the history of the instance. *)
Definition Unlocked (d : t) (h : trace) : Prop := fd_ d = -1 /\ held h = [].
Definition Locked (d : t) (h : trace) : Prop := fd_ d <> -1 /\ held h = [fd_ d].
Definition Inv (d : t) (h : trace) : Prop := Unlocked d h \/ Locked d h.

(** The calls of an acquisition: the directory opened as descriptor [fd],
    then attempts at the lock, the last of them granted. *)
Definition acquisition (dirname : string) (fd : Z) (es : trace) : Prop :=
  exists n mid,
    fd = Z.of_N n
    /\ es = (EvOpen (c_str dirname) (Z.lor O_RDONLY O_NOCTTY) (inr n)
              :: mid ++ [EvFlock fd (Z.lor LOCK_EX LOCK_NB) (inr tt)])%list.

(** The calls of a release: the lock dropped and the descriptor closed. *)
Definition release (fd : Z) : trace :=
  [EvFlock fd LOCK_UN (inr tt); EvClose fd (inr tt)].

(** The states an instance goes through while it lives: it is constructed
    on a fresh history, then [Lock] and [Unlock] are called on it. *)
Inductive reachable (os : OS) : t -> trace -> Prop :=
| reach_construct fuel dirname lock d h :
    construct os fuel dirname lock [] = Some (d, h) -> reachable os d h
| reach_Lock fuel d h r d' h' :
    reachable os d h -> Lock os fuel d h = Some (r, d', h') ->
    reachable os d' h'
| reach_Unlock d h r d' h' :
    reachable os d h -> Unlock os d h = (r, d', h') -> reachable os d' h'.

End DirectoryLock.

(** ** Hosts to run the code on *)

Module Hosts.

Definition ENOENT : errno_t := 2.
Definition EIO : errno_t := 5.

Definition strerror_linux (e : errno_t) : string :=
  if e =? ENOENT then "No such file or directory"
  else if e =? EIO then "Input/output error"
  else if e =? EWOULDBLOCK then "Resource temporarily unavailable"
  else "Unknown error".

(** glibc's [gnu_dev_major] and [gnu_dev_minor]. *)
Definition gnu_dev_major (dev : Z) : N :=
  Z.to_N (Z.lor (Z.land (Z.shiftr dev 32) 4294963200) (Z.land (Z.shiftr dev 8) 4095)).
Definition gnu_dev_minor (dev : Z) : N :=
  Z.to_N (Z.lor (Z.land (Z.shiftr dev 12) 4294967040) (Z.land dev 255)).

Definition plot_dir : string := "/tmp/plot".

Definition count_sleeps (h : trace) : nat :=
  List.length (filter (fun e => match e with EvSleep _ => true | _ => false end) h).

Definition sda : string :=
  "/sys/devices/pci0000:00/0000:00:1f.2/ata1/host0/target0:0:0/0:0:0:0/block/sda".

(** A host where nothing exists: every call fails with ENOENT. *)
Definition nothing : OS := {|
  os_stat := fun _ _ => inl ENOENT;
  os_realpath := fun _ _ => inl ENOENT;
  os_ifstream := fun _ _ => inl ENOENT;
  os_open := fun _ _ _ => inl ENOENT;
  os_flock := fun _ _ _ => inl ENOENT;
  os_close := fun _ _ => inl ENOENT;
  major := gnu_dev_major;
  minor := gnu_dev_minor;
  strerror := strerror_linux
|}.

(** A host with the directory on device 8:0, whose sysfs entry resolves to
    [sda]; the attribute file holds [rot] wherever it is asked for. The
    directory opens as descriptor 3; the lock is refused while fewer than
    [busy] sleeps have passed; [close] fails with EIO iff [bad_close]. *)
Definition disk (rot : string) (busy : nat) (bad_close : bool) : OS := {|
  os_stat := fun _ _ => inr 2048;
  os_realpath := fun _ _ => inr sda;
  os_ifstream := fun _ _ => inr rot;
  os_open := fun _ _ _ => inr 3%N;
  os_flock := fun h _ op =>
    if (op =? LOCK_UN) || (busy <=? count_sleeps h)%nat then inr tt
    else inl EWOULDBLOCK;
  os_close := fun _ _ => if bad_close then inl EIO else inr tt;
  major := gnu_dev_major;
  minor := gnu_dev_minor;
  strerror := strerror_linux
|}.

(** A run on [disk "1" 1 false]: the instance before and after the lock is
    taken at the second attempt, and the history of that acquisition. *)
Definition unlocked_plot : DirectoryLock.t :=
  {| DirectoryLock.fd_ := -1; DirectoryLock.dirname_ := plot_dir |}.

Definition locked_plot : DirectoryLock.t :=
  {| DirectoryLock.fd_ := 3; DirectoryLock.dirname_ := plot_dir |}.

Definition acquired_plot : trace :=
  [EvOpen plot_dir 256 (inr 3%N);
   EvFlock 3 6 (inl EWOULDBLOCK);
   EvCout ("Directory locked, waiting (retrying in 1 minute): /tmp/plot"
             ++ DirectoryLock.endl);
   EvSleep 60;
   EvFlock 3 6 (inr tt)].

(** A host whose sysfs has the attribute file only under the bare device
    name, as Linux has it. *)
Definition linux_sysfs : OS := {|
  os_stat := fun _ _ => inr 2048;
  os_realpath := fun _ p => if String.eqb p "/sys/dev/block/8:0" then inr sda else inl ENOENT;
  os_ifstream := fun _ p =>
    if String.eqb p "/sys/block/sda/queue/rotational" then inr ("1" ++ DirectoryLock.endl)
    else inl ENOENT;
  os_open := fun _ _ _ => inr 3%N;
  os_flock := fun _ _ _ => inr tt;
  os_close := fun _ _ => inr tt;
  major := gnu_dev_major;
  minor := gnu_dev_minor;
  strerror := strerror_linux
|}.

(** A host without the sysfs tree: [stat] works, [realpath] does not. *)
Definition no_sysfs : OS := {|
  os_stat := fun _ _ => inr 2048;
  os_realpath := fun _ _ => inl ENOENT;
  os_ifstream := fun _ _ => inl ENOENT;
  os_open := fun _ _ _ => inr 3%N;
  os_flock := fun _ _ _ => inr tt;
  os_close := fun _ _ => inr tt;
  major := gnu_dev_major;
  minor := gnu_dev_minor;
  strerror := strerror_linux
|}.

(** The same host with a solid-state disk: the attribute file of [sda]
    holds ["0"]. *)
Definition linux_sysfs_ssd : OS := {|
  os_stat := fun _ _ => inr 2048;
  os_realpath := fun _ p =>
    if String.eqb p "/sys/dev/block/8:0" then inr sda else inl ENOENT;
  os_ifstream := fun _ p =>
    if String.eqb p "/sys/block/sda/queue/rotational"
    then inr ("0" ++ DirectoryLock.endl)
    else inl ENOENT;
  os_open := fun _ _ _ => inr 3%N;
  os_flock := fun _ _ _ => inr tt;
  os_close := fun _ _ => inr tt;
  major := gnu_dev_major;
  minor := gnu_dev_minor;
  strerror := strerror_linux
|}.

Definition ENOLCK : errno_t := 37.

(** A host where the directory opens as descriptor 3 and every flock call
    fails with ENOLCK. *)
Definition jammed : OS := {|
  os_stat := fun _ _ => inr 2048;
  os_realpath := fun _ _ => inr sda;
  os_ifstream := fun _ _ => inr "1";
  os_open := fun _ _ _ => inr 3%N;
  os_flock := fun _ _ _ => inl ENOLCK;
  os_close := fun _ _ => inr tt;
  major := gnu_dev_major;
  minor := gnu_dev_minor;
  strerror := strerror_linux
|}.

End Hosts.

(** ** What a history shows *)

Module History.

(** The durations of the sleeps of a history, in order. *)
Definition sleeps (es : trace) : list Z :=
  flat_map (fun e => match e with EvSleep n => [n] | _ => [] end) es.

(** The number of flock calls the host refused. *)
Definition refusals (es : trace) : nat :=
  List.length
    (filter (fun e => match e with EvFlock _ _ (inl _) => true | _ => false end)
       es).

(** The [open] calls of a history: pathname and flags. *)
Definition opened (es : trace) : list (string * Z) :=
  flat_map (fun e => match e with EvOpen p f _ => [(p, f)] | _ => [] end) es.

(** What the retry loop does between two attempts: a refused flock, a notice
    on either stream, a sleep. *)
Definition is_waiting (e : event) : bool :=
  match e with
  | EvFlock _ _ (inl _) | EvCout _ | EvCerr _ | EvSleep _ => true
  | _ => false
  end.

(** A string in which the character [c] does not occur. *)
Fixpoint lacks (c : ascii) (s : string) : bool :=
  match s with
  | EmptyString => true
  | String x r => negb (Ascii.eqb x c) && lacks c r
  end.

(** A host on which nobody else holds anything: every [open], [flock] and
    [close] succeeds. *)
Definition uncontended (os : OS) : Prop :=
  (forall h p f, exists n, os_open os h p f = inr n)
  /\ (forall h fd op, os_flock os h fd op = inr tt)
  /\ (forall h fd, os_close os h fd = inr tt).

(** A host that refuses the exclusive lock on [fd] whenever it is asked. *)
Definition refuses_lock (os : OS) (fd : Z) : Prop :=
  forall h, exists e, os_flock os h fd (Z.lor LOCK_EX LOCK_NB) = inl e.

(** A host that refuses the exclusive lock on [fd] with EWOULDBLOCK until
    the caller has slept [k] times, and grants it from then on. *)
Definition frees_after (os : OS) (fd : Z) (k : nat) : Prop :=
  forall h,
    os_flock os h fd (Z.lor LOCK_EX LOCK_NB) =
      if (k <=? List.length (sleeps h))%nat then inr tt else inl EWOULDBLOCK.

End History.

(** * Properties *)

(** ** Strings *)

Section StringFacts.

Lemma append_assoc (a b c : string) : (a ++ b) ++ c = a ++ (b ++ c).
Proof. induction a as [|x a IH]; simpl; [reflexivity | now rewrite IH]. Qed.

Lemma length_append (a b : string) :
  String.length (a ++ b) = (String.length a + String.length b)%nat.
Proof. induction a as [|x a IH]; simpl; [reflexivity | now rewrite IH]. Qed.

Lemma append_cancel_r (a b s : string) : a ++ s = b ++ s -> a = b.
Proof.
  revert b; induction a as [|x a IH]; intros [|y b] H; simpl in H.
  - reflexivity.
  - apply (f_equal String.length) in H; simpl in H.
    rewrite length_append in H; lia.
  - apply (f_equal String.length) in H; simpl in H.
    rewrite length_append in H; lia.
  - injection H as -> H. now rewrite (IH b H).
Qed.

Lemma append_cancel_l (s a b : string) : s ++ a = s ++ b -> a = b.
Proof.
  induction s as [|x s IH]; simpl; intros H; [exact H|].
  injection H as H; auto.
Qed.

Lemma no_nul_append (a b : string) :
  no_nul (a ++ b) = no_nul a && no_nul b.
Proof.
  induction a as [|x a IH]; simpl; [reflexivity|].
  now rewrite IH, andb_assoc.
Qed.

Lemma c_str_no_nul (s : string) : no_nul s = true -> c_str s = s.
Proof.
  induction s as [|x s IH]; simpl; [reflexivity|].
  destruct (Ascii.eqb x NUL); simpl; [discriminate|].
  intros H; now rewrite IH.
Qed.

Lemma no_nul_c_str (s : string) : no_nul (c_str s) = true.
Proof.
  induction s as [|x s IH]; simpl; [reflexivity|].
  destruct (Ascii.eqb x NUL) eqn:E; simpl; [reflexivity|].
  now rewrite E, IH.
Qed.

Lemma c_str_idem (s : string) : c_str (c_str s) = c_str s.
Proof. apply c_str_no_nul, no_nul_c_str. Qed.

Lemma no_nul_digits (u : Decimal.uint) :
  no_nul (NilEmpty.string_of_uint u) = true.
Proof. induction u; simpl; auto. Qed.

Lemma no_nul_decimal (n : N) : no_nul (decimal n) = true.
Proof.
  unfold decimal, NilZero.string_of_uint.
  destruct (N.to_uint n) eqn:E; try reflexivity;
    rewrite <- E; apply no_nul_digits.
Qed.

(** The first line starts with ['0'] exactly when it is not empty and its
    front character is ['0']: the test of line 93. *)
Lemma front_zero_prefix (line : string) :
  negb (empty line) && Ascii.eqb (front line) "0"%char = prefix "0" line.
Proof.
  destruct line as [|c r]; [reflexivity|].
  cbn [empty front negb andb prefix].
  destruct (ascii_dec "0"%char c) as [<-|N].
  - rewrite Ascii.eqb_refl. now destruct r.
  - apply Ascii.eqb_neq. congruence.
Qed.

End StringFacts.

(** ** DiskUtil *)

Section DiskUtilFacts.

Import DiskUtil.

Variable os : OS.

Lemma block_entry_no_nul (st_dev : Z) : no_nul (block_entry os st_dev) = true.
Proof.
  unfold block_entry.
  rewrite !no_nul_append, !no_nul_decimal. reflexivity.
Qed.

Lemma rotational_filename_no_nul (dev : string) :
  no_nul dev = true -> no_nul (rotational_filename dev) = true.
Proof.
  intros H. unfold rotational_filename.
  rewrite !no_nul_append, H. reflexivity.
Qed.

Lemma rotational_filename_inj (a b : string) :
  rotational_filename a = rotational_filename b -> a = b.
Proof.
  unfold rotational_filename. intros H.
  apply append_cancel_l in H. now apply append_cancel_r in H.
Qed.

(** What [DeviceNameOfDirectory] hands back is a C string. *)
Lemma DeviceNameOfDirectory_c_str dir h dev h1 :
  DeviceNameOfDirectory os dir h = (inr dev, h1) -> c_str dev = dev.
Proof.
  unfold DeviceNameOfDirectory, bind, ret, sys_stat, sys_realpath.
  destruct (os_stat os h (c_str dir)); [discriminate|].
  destruct (os_realpath os _ _); [discriminate|].
  intros H; injection H as <- _. apply c_str_idem.
Qed.

(** [ShouldLock] on Linux is the classifier run on the resolved name, its
    answer negated. *)
Lemma ShouldLock_Linux dir h dev h1 :
  DeviceNameOfDirectory os dir h = (inr dev, h1) ->
  ShouldLock os Linux dir h =
    (let (r, h2) := IsParallelWritingPreferredForDevice os dev h1 in
     (match r with inl e => inl e | inr b => inr (negb b) end, h2)).
Proof.
  intros H. unfold ShouldLock, bind.
  rewrite H, (DeviceNameOfDirectory_c_str _ _ _ _ H).
  destruct (IsParallelWritingPreferredForDevice os dev h1) as [[e|b] h2];
    reflexivity.
Qed.

End DiskUtilFacts.

Section DiskUtilClaims.

Import DiskUtil Hosts.

(** C6. [DeviceNameOfDirectory] throws a runtime_error ending in the text of
    the OS error when the directory cannot be stat'ed; when the stat
    succeeds it resolves [/sys/dev/block/<major>:<minor>], throws a
    runtime_error ending in the text of the OS error when that resolution
    fails, and otherwise returns the resolved pathname, which is not empty
    ([realpath] answers an absolute pathname). *)
Theorem DeviceNameOfDirectory_outcomes (os : OS) (dir : string) (h : trace) :
  (forall e, os_stat os h (c_str dir) = inl e ->
     fst (DeviceNameOfDirectory os dir h) =
       inl (runtime_error
              ("Unable to find device name for dir " ++ dir ++ ": "
                 ++ strerror os e)))
  /\
  (forall st_dev e,
     os_stat os h (c_str dir) = inr st_dev ->
     os_realpath os (h ++ [EvStat (c_str dir) (inr st_dev)])%list
       ("/sys/dev/block/" ++ decimal (major os st_dev) ++ ":"
          ++ decimal (minor os st_dev)) = inl e ->
     fst (DeviceNameOfDirectory os dir h) =
       inl (runtime_error
              ("Unable to find device name for /sys/dev/block/"
                 ++ decimal (major os st_dev) ++ ":"
                 ++ decimal (minor os st_dev) ++ ": " ++ strerror os e)))
  /\
  (forall st_dev p,
     os_stat os h (c_str dir) = inr st_dev ->
     os_realpath os (h ++ [EvStat (c_str dir) (inr st_dev)])%list
       ("/sys/dev/block/" ++ decimal (major os st_dev) ++ ":"
          ++ decimal (minor os st_dev)) = inr p ->
     absolute p = true ->
     exists dev,
       fst (DeviceNameOfDirectory os dir h) = inr dev /\ dev = c_str p
       /\ dev <> "").
Proof.
  unfold DeviceNameOfDirectory, bind, ret, sys_stat, sys_realpath.
  repeat split.
  - intros e ->. reflexivity.
  - intros st_dev e -> Hr.
    fold (block_entry os st_dev) in *.
    rewrite (c_str_no_nul _ (block_entry_no_nul os st_dev)), Hr.
    simpl. unfold block_entry. now rewrite !append_assoc.
  - intros st_dev p -> Hr Habs.
    fold (block_entry os st_dev) in *.
    rewrite (c_str_no_nul _ (block_entry_no_nul os st_dev)), Hr.
    exists (c_str p). repeat split.
    destruct p as [|c p]; [discriminate|].
    unfold absolute in Habs; cbn [prefix] in Habs.
    destruct (ascii_dec "/"%char c) as [<-|]; [|discriminate].
    simpl. discriminate.
Qed.

Lemma DeviceNameOfDirectory_outcomes_witness :
  fst (DeviceNameOfDirectory nothing "/tmp/plot" []) =
    inl (runtime_error
           "Unable to find device name for dir /tmp/plot: No such file or directory")
  /\ fst (DeviceNameOfDirectory no_sysfs "/tmp/plot" []) =
       inl (runtime_error
              "Unable to find device name for /sys/dev/block/8:0: No such file or directory")
  /\ exists dev,
       fst (DeviceNameOfDirectory (disk "0" 0 false) "/tmp/plot" []) = inr dev
       /\ dev = c_str sda /\ dev <> "".
Proof.
  split; [|split].
  - apply (proj1 (DeviceNameOfDirectory_outcomes nothing "/tmp/plot" []) ENOENT).
    reflexivity.
  - apply (proj1 (proj2 (DeviceNameOfDirectory_outcomes no_sysfs "/tmp/plot" []))
             2048 ENOENT); reflexivity.
  - apply (proj2 (proj2 (DeviceNameOfDirectory_outcomes (disk "0" 0 false)
                           "/tmp/plot" [])) 2048 sda); reflexivity.
Defined.

(** C5. When the attribute file [/sys/block/<dev>/queue/rotational] cannot
    be opened, [IsParallelWritingPreferredForDevice] throws a runtime_error
    that names the file and ends in the text of the OS error; it returns no
    answer at all. *)
Theorem IsParallelWritingPreferredForDevice_open_failure
  (os : OS) (dev : string) (h : trace) (e : errno_t) :
  fst (ifstream_open os ("/sys/block/" ++ dev ++ "/queue/rotational") h) = inl e ->
  fst (IsParallelWritingPreferredForDevice os dev h) =
    inl (runtime_error
           ("Unable to open /sys/block/" ++ dev ++ "/queue/rotational"
              ++ " for reading: " ++ strerror os e))
  /\ forall b, fst (IsParallelWritingPreferredForDevice os dev h) <> inr b.
Proof.
  unfold IsParallelWritingPreferredForDevice, bind, rotational_filename.
  destruct (ifstream_open os _ h) as [r h1]; simpl.
  intros ->; simpl. rewrite !append_assoc. split; [reflexivity|discriminate].
Qed.

Lemma IsParallelWritingPreferredForDevice_open_failure_witness :
  fst (ifstream_open nothing "/sys/block/sda/queue/rotational" []) = inl ENOENT
  /\ fst (IsParallelWritingPreferredForDevice nothing "sda" []) =
       inl (runtime_error
              "Unable to open /sys/block/sda/queue/rotational for reading: No such file or directory")
  /\ forall b, fst (IsParallelWritingPreferredForDevice nothing "sda" []) <> inr b.
Proof.
  split; [reflexivity|].
  apply (IsParallelWritingPreferredForDevice_open_failure nothing "sda" [] ENOENT).
  reflexivity.
Defined.

(** C4. When the attribute file opens, [IsParallelWritingPreferredForDevice]
    reads its first line and returns true (parallel writing preferred, not
    rotational) exactly when that line is not empty and its first character
    is ['0']; for every other first line it returns false (rotational). *)
Theorem IsParallelWritingPreferredForDevice_first_line
  (os : OS) (dev : string) (h : trace) (content : string) :
  fst (ifstream_open os ("/sys/block/" ++ dev ++ "/queue/rotational") h)
    = inr content ->
  exists b,
    fst (IsParallelWritingPreferredForDevice os dev h) = inr b
    /\ (b = true <->
        empty (getline content) = false
        /\ front (getline content) = "0"%char)
    /\ (b = false <->
        empty (getline content) = true
        \/ front (getline content) <> "0"%char).
Proof.
  unfold IsParallelWritingPreferredForDevice, bind, rotational_filename.
  destruct (ifstream_open os _ h) as [r h1]; simpl.
  intros ->; simpl.
  destruct (getline content) as [|c line]; simpl.
  - exists false. repeat split; auto; try discriminate.
    intros []; discriminate.
  - destruct (Ascii.eqb_spec c "0"%char) as [->|N]; simpl.
    + exists true. repeat split; auto; try discriminate.
      intros [|]; [discriminate|congruence].
    + exists false. repeat split; auto; try discriminate.
      intros []; congruence.
Qed.

Lemma IsParallelWritingPreferredForDevice_first_line_witness :
  fst (ifstream_open (disk ("0" ++ DirectoryLock.endl) 0 false)
         "/sys/block/sda/queue/rotational" []) = inr ("0" ++ DirectoryLock.endl)
  /\ exists b,
      fst (IsParallelWritingPreferredForDevice
             (disk ("0" ++ DirectoryLock.endl) 0 false) "sda" []) = inr b
      /\ (b = true <->
          empty (getline ("0" ++ DirectoryLock.endl)) = false
          /\ front (getline ("0" ++ DirectoryLock.endl)) = "0"%char)
      /\ (b = false <->
          empty (getline ("0" ++ DirectoryLock.endl)) = true
          \/ front (getline ("0" ++ DirectoryLock.endl)) <> "0"%char).
Proof.
  split; [reflexivity|].
  apply (IsParallelWritingPreferredForDevice_first_line
           (disk ("0" ++ DirectoryLock.endl) 0 false) "sda" []).
  reflexivity.
Defined.

(** What [ShouldLock] does when the file it builds from the resolved name
    does open: it returns false if the first line of that file starts with
    ['0'], and true for any other content. *)
Theorem ShouldLock_by_rotational_file
  (os : OS) (dir : string) (h : trace) (dev : string) (h1 : trace)
  (content : string) :
  DeviceNameOfDirectory os dir h = (inr dev, h1) ->
  fst (ifstream_open os ("/sys/block/" ++ dev ++ "/queue/rotational") h1)
    = inr content ->
  (prefix "0" (getline content) = true ->
     fst (ShouldLock os Linux dir h) = inr false)
  /\ (prefix "0" (getline content) = false ->
        fst (ShouldLock os Linux dir h) = inr true).
Proof.
  intros Hdev Hopen.
  rewrite (ShouldLock_Linux os _ _ _ _ Hdev).
  unfold IsParallelWritingPreferredForDevice, bind, rotational_filename.
  destruct (ifstream_open os _ h1) as [r h2]; simpl in Hopen; subst r.
  cbn [ret fst]. rewrite front_zero_prefix.
  split; intros ->; reflexivity.
Qed.

Lemma ShouldLock_by_rotational_file_witness :
  fst (ShouldLock (disk "0" 0 false) Linux "/tmp/plot" []) = inr false
  /\ fst (ShouldLock (disk "1" 0 false) Linux "/tmp/plot" []) = inr true
  /\ fst (ShouldLock (disk "" 0 false) Linux "/tmp/plot" []) = inr true.
Proof.
  split; [|split].
  - apply (proj1 (ShouldLock_by_rotational_file (disk "0" 0 false) "/tmp/plot"
                    [] sda
                    [EvStat "/tmp/plot" (inr 2048);
                     EvRealpath "/sys/dev/block/8:0" (inr sda)] "0"
                    eq_refl eq_refl)).
    reflexivity.
  - apply (proj2 (ShouldLock_by_rotational_file (disk "1" 0 false) "/tmp/plot"
                    [] sda
                    [EvStat "/tmp/plot" (inr 2048);
                     EvRealpath "/sys/dev/block/8:0" (inr sda)] "1"
                    eq_refl eq_refl)).
    reflexivity.
  - apply (proj2 (ShouldLock_by_rotational_file (disk "" 0 false) "/tmp/plot"
                    [] sda
                    [EvStat "/tmp/plot" (inr 2048);
                     EvRealpath "/sys/dev/block/8:0" (inr sda)] ""
                    eq_refl eq_refl)).
    reflexivity.
Defined.

(** C3. On Linux, [ShouldLock] hands the whole pathname that
    [DeviceNameOfDirectory] returned to the classifier, so the one file it
    tries to open is ["/sys/block/" ++ path ++ "/queue/rotational"] for that
    whole pathname; this is the file of no other name, the bare device
    name included. *)
Theorem ShouldLock_opens_resolved_path
  (os : OS) (dir : string) (h : trace) (path : string) (h1 : trace) :
  DeviceNameOfDirectory os dir h = (inr path, h1) ->
  let file := "/sys/block/" ++ path ++ "/queue/rotational" in
  ShouldLock os Linux dir h =
    (let (r, h2) := IsParallelWritingPreferredForDevice os path h1 in
     (match r with inl e => inl e | inr b => inr (negb b) end, h2))
  /\ snd (ShouldLock os Linux dir h) =
       (h1 ++ [EvIfstreamOpen file (os_ifstream os h1 file)])%list
  /\ forall bare, bare <> path ->
       file <> "/sys/block/" ++ bare ++ "/queue/rotational".
Proof.
  intros Hdev file. split; [|split].
  - apply ShouldLock_Linux, Hdev.
  - rewrite (ShouldLock_Linux os _ _ _ _ Hdev).
    unfold IsParallelWritingPreferredForDevice, bind, ifstream_open.
    fold file. unfold rotational_filename. fold file.
    assert (Hc : c_str file = file).
    { apply c_str_no_nul, rotational_filename_no_nul.
      rewrite <- (DeviceNameOfDirectory_c_str os _ _ _ _ Hdev).
      apply no_nul_c_str. }
    rewrite Hc. destruct (os_ifstream os h1 file); reflexivity.
  - intros bare Hne Heq. apply Hne. symmetry.
    apply rotational_filename_inj, Heq.
Qed.

Lemma ShouldLock_opens_resolved_path_witness :
  snd (ShouldLock linux_sysfs Linux "/tmp/plot" []) =
    [EvStat "/tmp/plot" (inr 2048);
     EvRealpath "/sys/dev/block/8:0" (inr sda);
     EvIfstreamOpen ("/sys/block/" ++ sda ++ "/queue/rotational") (inl ENOENT)]
  /\ "/sys/block/" ++ sda ++ "/queue/rotational"
       <> "/sys/block/sda/queue/rotational".
Proof.
  pose proof (ShouldLock_opens_resolved_path linux_sysfs "/tmp/plot" [] sda
                [EvStat "/tmp/plot" (inr 2048);
                 EvRealpath "/sys/dev/block/8:0" (inr sda)] eq_refl)
    as [_ [Ht Hne]].
  split.
  - exact Ht.
  - apply (Hne "sda"). discriminate.
Defined.

(** On a host laid out as Linux lays out sysfs, where the attribute file
    sits under the bare device name, the file [ShouldLock] asks for does
    not exist and the call ends in the runtime_error of the classifier. *)
Example ShouldLock_linux_sysfs :
  fst (ShouldLock linux_sysfs Linux "/tmp/plot" []) =
    inl (runtime_error
           ("Unable to open /sys/block/" ++ sda
              ++ "/queue/rotational for reading: No such file or directory")).
Proof. reflexivity. Qed.

(** C2, the code at the failing input. On a Linux host the directory is on
    the disk [sda]: its device resolves, and the rotational attribute file of
    the disk, [/sys/block/sda/queue/rotational], opens and starts with ['0'].
    [ShouldLock] does not return false: it asks for the file named after the
    whole resolved pathname, which does not exist, and throws. With the
    attribute file holding ['1'] it throws in the same way and does not
    return true. *)
Theorem ShouldLock_throws_on_linux_sysfs :
  (DeviceNameOfDirectory linux_sysfs_ssd plot_dir [] =
     (inr sda,
      [EvStat plot_dir (inr 2048); EvRealpath "/sys/dev/block/8:0" (inr sda)])
   /\ fst (ifstream_open linux_sysfs_ssd "/sys/block/sda/queue/rotational"
             [EvStat plot_dir (inr 2048);
              EvRealpath "/sys/dev/block/8:0" (inr sda)])
        = inr ("0" ++ DirectoryLock.endl)
   /\ prefix "0" (getline ("0" ++ DirectoryLock.endl)) = true
   /\ fst (ShouldLock linux_sysfs_ssd Linux plot_dir []) =
        inl (runtime_error
               ("Unable to open /sys/block/" ++ sda
                  ++ "/queue/rotational for reading: No such file or directory"))
   /\ fst (ShouldLock linux_sysfs_ssd Linux plot_dir []) <> inr false)
  /\ (DeviceNameOfDirectory linux_sysfs plot_dir [] =
        (inr sda,
         [EvStat plot_dir (inr 2048); EvRealpath "/sys/dev/block/8:0" (inr sda)])
      /\ fst (ifstream_open linux_sysfs "/sys/block/sda/queue/rotational"
                [EvStat plot_dir (inr 2048);
                 EvRealpath "/sys/dev/block/8:0" (inr sda)])
           = inr ("1" ++ DirectoryLock.endl)
      /\ prefix "0" (getline ("1" ++ DirectoryLock.endl)) = false
      /\ fst (ShouldLock linux_sysfs Linux plot_dir []) =
           inl (runtime_error
                  ("Unable to open /sys/block/" ++ sda
                     ++ "/queue/rotational for reading: No such file or directory"))
      /\ fst (ShouldLock linux_sysfs Linux plot_dir []) <> inr true).
Proof.
  split; (repeat split; try reflexivity; discriminate).
Qed.

(** On the other builds [ShouldLock] answers false and asks nothing. *)
Example ShouldLock_other_platforms (os : OS) (dir : string) (h : trace) :
  ShouldLock os Apple dir h = (inr false, h)
  /\ ShouldLock os Win32 dir h = (inr false, h).
Proof. split; reflexivity. Qed.

End DiskUtilClaims.

(** ** DirectoryLock *)

Section DirectoryLockFacts.

Import DirectoryLock.

Variable os : OS.

Lemma t_eta (d : t) : {| fd_ := fd_ d; dirname_ := dirname_ d |} = d.
Proof. now destruct d. Qed.

(** One refused attempt: a notice, a sleep of 60 seconds, and again. *)
Lemma flock_retry_refused fuel dir_fd dirname h e :
  os_flock os h dir_fd (Z.lor LOCK_EX LOCK_NB) = inl e ->
  exists notice,
    flock_retry os (S fuel) dir_fd dirname h =
      flock_retry os fuel dir_fd dirname
        (h ++ [EvFlock dir_fd (Z.lor LOCK_EX LOCK_NB) (inl e); notice;
               EvSleep 60])%list
    /\ (notice = EvCout ("Directory locked, waiting (retrying in 1 minute): "
                           ++ dirname ++ endl)
        \/ notice = EvCerr ("Unable to lock directory (retrying in 1 minute): "
                             ++ ". Error: " ++ strerror os e ++ endl)).
Proof.
  intros H. cbn [flock_retry]. unfold sys_flock. rewrite H.
  destruct (EWOULDBLOCK =? e).
  - eexists; split; [|left; reflexivity].
    unfold cout, sleep_seconds, emit. rewrite <- !app_assoc. reflexivity.
  - eexists; split; [|right; reflexivity].
    unfold cerr, sleep_seconds, emit. rewrite <- !app_assoc. reflexivity.
Qed.

Lemma flock_retry_granted fuel dir_fd dirname h u :
  os_flock os h dir_fd (Z.lor LOCK_EX LOCK_NB) = inr u ->
  flock_retry os (S fuel) dir_fd dirname h =
    Some (h ++ [EvFlock dir_fd (Z.lor LOCK_EX LOCK_NB) (inr tt)])%list.
Proof.
  intros H. cbn [flock_retry]. unfold sys_flock. rewrite H. now destruct u.
Qed.

(** The loop ends only on a granted lock, and what it appends to the
    history opens and closes nothing. *)
Lemma flock_retry_Some fuel dir_fd dirname :
  forall h h', flock_retry os fuel dir_fd dirname h = Some h' ->
  exists mid,
    h' = (h ++ mid ++ [EvFlock dir_fd (Z.lor LOCK_EX LOCK_NB) (inr tt)])%list
    /\ forall l, fold_left held_step mid l = l.
Proof.
  induction fuel as [|fuel IH]; intros h h' H; [discriminate|].
  destruct (os_flock os h dir_fd (Z.lor LOCK_EX LOCK_NB)) as [e|u] eqn:E.
  - destruct (flock_retry_refused fuel dir_fd dirname h e E) as (n & Hn & Hk).
    rewrite Hn in H. apply IH in H. destruct H as (mid & -> & Hmid).
    exists ([EvFlock dir_fd (Z.lor LOCK_EX LOCK_NB) (inl e); n; EvSleep 60]
              ++ mid)%list.
    split; [now rewrite <- !app_assoc|].
    intros l. rewrite fold_left_app, Hmid.
    destruct Hk as [->| ->]; reflexivity.
  - rewrite (flock_retry_granted fuel dir_fd dirname h u E) in H.
    injection H as <-. exists []. split; reflexivity.
Qed.

(** More fuel does not change a result. *)
Lemma flock_retry_mono fuel dir_fd dirname :
  forall h h' k, flock_retry os fuel dir_fd dirname h = Some h' ->
  flock_retry os (fuel + k) dir_fd dirname h = Some h'.
Proof.
  induction fuel as [|fuel IH]; intros h h' k H; [discriminate|].
  change (S fuel + k)%nat with (S (fuel + k)).
  cbn [flock_retry] in *. unfold sys_flock in *.
  destruct (os_flock os h dir_fd (Z.lor LOCK_EX LOCK_NB)) as [e|u];
    [|exact H].
  destruct (EWOULDBLOCK =? e);
    cbv [cout cerr emit sleep_seconds] in *; apply IH, H.
Qed.

Lemma held_app (h es : trace) :
  held (h ++ es)%list = fold_left held_step es (held h).
Proof. unfold held. apply fold_left_app. Qed.

Lemma Lock_locked fuel d h :
  fd_ d <> -1 -> Lock os fuel d h = Some (true, d, h).
Proof.
  intros H. unfold Lock.
  destruct (fd_ d =? -1) eqn:E; [apply Z.eqb_eq in E; contradiction|].
  reflexivity.
Qed.

Lemma Lock_open_refused fuel d h e :
  fd_ d = -1 ->
  os_open os h (c_str (dirname_ d)) (Z.lor O_RDONLY O_NOCTTY) = inl e ->
  Lock os fuel d h =
    Some (false, d,
          (h ++ [EvOpen (c_str (dirname_ d)) (Z.lor O_RDONLY O_NOCTTY) (inl e);
                 EvCerr ("Unable to open directory for locking: "
                           ++ dirname_ d ++ ". Error: " ++ strerror os e
                           ++ endl)])%list).
Proof.
  intros Hfd Ho. unfold Lock, LockDirectory, sys_open, cerr, emit.
  rewrite Hfd, Ho. cbn [Z.eqb Pos.eqb fd_ dirname_ negb].
  rewrite <- Hfd at 1. rewrite t_eta, <- app_assoc. reflexivity.
Qed.

Lemma Lock_open_answered fuel d h n r d' h' :
  fd_ d = -1 ->
  os_open os h (c_str (dirname_ d)) (Z.lor O_RDONLY O_NOCTTY) = inr n ->
  Lock os fuel d h = Some (r, d', h') ->
  r = true /\ d' = {| fd_ := Z.of_N n; dirname_ := dirname_ d |}
  /\ exists mid,
       h' = (h ++ EvOpen (c_str (dirname_ d)) (Z.lor O_RDONLY O_NOCTTY) (inr n)
               :: mid ++ [EvFlock (Z.of_N n) (Z.lor LOCK_EX LOCK_NB) (inr tt)])%list
       /\ forall l, fold_left held_step mid l = l.
Proof.
  intros Hfd Ho. unfold Lock, LockDirectory, sys_open.
  rewrite Hfd, Ho. cbn [Z.eqb Pos.eqb].
  destruct (flock_retry os fuel (Z.of_N n) (dirname_ d) _) as [h2|] eqn:E;
    [|discriminate].
  intros H; injection H as <- <- <-.
  apply flock_retry_Some in E. destruct E as (mid & -> & Hmid).
  cbn [fd_]. split; [|split; [reflexivity|]].
  - destruct (Z.of_N n =? -1) eqn:E; [|reflexivity].
    apply Z.eqb_eq in E. lia.
  - exists mid. split; [|exact Hmid]. now rewrite <- app_assoc.
Qed.

(** [Lock] returns as soon as the fuel covers the attempts the host
    refuses, and more fuel returns the same. *)
Lemma Lock_mono fuel k d h x :
  Lock os fuel d h = Some x -> Lock os (fuel + k) d h = Some x.
Proof.
  unfold Lock, LockDirectory.
  destruct (fd_ d =? -1); [|exact (fun H => H)].
  destruct (sys_open os (dirname_ d) _ h) as [[e|n] h1];
    [exact (fun H => H)|].
  destruct (flock_retry os fuel (Z.of_N n) (dirname_ d) h1) as [h2|] eqn:E;
    [|discriminate].
  now rewrite (flock_retry_mono fuel _ _ h1 h2 k E).
Qed.

Lemma Unlock_unlocked d h : fd_ d = -1 -> Unlock os d h = (false, d, h).
Proof. intros H. unfold Unlock. now rewrite H. Qed.

(** [Unlock] on a held descriptor, by the answers of the two calls. *)
Lemma Unlock_locked_cases d h :
  fd_ d <> -1 ->
  match os_flock os h (fd_ d) LOCK_UN with
  | inl e =>
      Unlock os d h =
        (false, d,
         (h ++ [EvFlock (fd_ d) LOCK_UN (inl e);
                EvCerr ("Failed to unlock the directory: " ++ dirname_ d
                          ++ ". Error: " ++ strerror os e ++ endl)])%list)
  | inr u =>
      match os_close os (h ++ [EvFlock (fd_ d) LOCK_UN (inr u)])%list (fd_ d) with
      | inl e =>
          Unlock os d h =
            (false, d,
             (h ++ [EvFlock (fd_ d) LOCK_UN (inr u); EvClose (fd_ d) (inl e);
                    EvCerr ("Failed to close the directory during unlocking: "
                              ++ dirname_ d ++ ". Error: " ++ strerror os e
                              ++ endl)])%list)
      | inr u' =>
          Unlock os d h =
            (true, {| fd_ := -1; dirname_ := dirname_ d |},
             (h ++ [EvFlock (fd_ d) LOCK_UN (inr u);
                    EvClose (fd_ d) (inr u')])%list)
      end
  end.
Proof.
  intros H. unfold Unlock, UnlockDirectory, bind, sys_flock, sys_close, cerr,
    emit, ret.
  destruct (fd_ d =? -1) eqn:E; [apply Z.eqb_eq in E; contradiction|].
  destruct (os_flock os h (fd_ d) LOCK_UN) as [e|u].
  - cbn [negb]. now rewrite <- app_assoc.
  - destruct (os_close os _ (fd_ d)) as [e|u'];
      cbn [negb]; now rewrite <- !app_assoc.
Qed.

End DirectoryLockFacts.

Section InvariantFacts.

Import DirectoryLock.

Variable os : OS.

Lemma Inv_Lock fuel d h r d' h' :
  Inv d h -> Lock os fuel d h = Some (r, d', h') ->
  Inv d' h'
  /\ (Locked d h -> d' = d /\ h' = h)
  /\ (Unlocked d h -> Locked d' h' ->
      exists es, h' = (h ++ es)%list /\ acquisition (dirname_ d) (fd_ d') es).
Proof.
  intros [[Hfd Hh]|[Hfd Hh]] HL.
  - destruct (os_open os h (c_str (dirname_ d)) (Z.lor O_RDONLY O_NOCTTY))
      as [e|n] eqn:Ho.
    + rewrite (Lock_open_refused os fuel d h e Hfd Ho) in HL.
      injection HL as <- <- <-.
      split; [|split].
      * left. split; [exact Hfd|]. rewrite held_app, Hh. reflexivity.
      * intros [N _]. contradiction.
      * intros _ [N _]. contradiction.
    + destruct (Lock_open_answered os fuel d h n r d' h' Hfd Ho HL)
        as (-> & -> & mid & -> & Hmid).
      assert (HLk : Locked {| fd_ := Z.of_N n; dirname_ := dirname_ d |}
                      (h ++ EvOpen (c_str (dirname_ d))
                              (Z.lor O_RDONLY O_NOCTTY) (inr n)
                         :: mid ++ [EvFlock (Z.of_N n)
                                      (Z.lor LOCK_EX LOCK_NB) (inr tt)])%list).
      { split; [cbn [fd_]; lia|].
        rewrite held_app, Hh. cbn [fold_left held_step fd_].
        rewrite fold_left_app, Hmid. reflexivity. }
      split; [right; exact HLk|split].
      * intros [N _]. contradiction.
      * intros _ _. eexists; split; [reflexivity|].
        exists n, mid. split; reflexivity.
  - rewrite (Lock_locked os fuel d h Hfd) in HL. injection HL as <- <- <-.
    split; [right; split; assumption|split].
    + intros _. split; reflexivity.
    + intros [E _]. contradiction.
Qed.

Lemma Inv_Unlock d h r d' h' :
  Inv d h -> Unlock os d h = (r, d', h') ->
  Inv d' h'
  /\ (Unlocked d h -> d' = d /\ h' = h)
  /\ (Locked d h -> Unlocked d' h' -> h' = (h ++ release (fd_ d))%list).
Proof.
  intros [[Hfd Hh]|[Hfd Hh]] HU.
  - rewrite (Unlock_unlocked os d h Hfd) in HU. injection HU as <- <- <-.
    split; [left; split; assumption|split].
    + intros _. split; reflexivity.
    + intros [N _]. contradiction.
  - pose proof (Unlock_locked_cases os d h Hfd) as C.
    destruct (os_flock os h (fd_ d) LOCK_UN) as [e|[]].
    + rewrite C in HU. injection HU as <- <- <-.
      split; [|split].
      * right. split; [exact Hfd|]. rewrite held_app, Hh. reflexivity.
      * intros [E _]. contradiction.
      * intros _ [E _]. contradiction.
    + destruct (os_close os _ (fd_ d)) as [e|[]];
        rewrite C in HU; injection HU as <- <- <-.
      * split; [|split].
        -- right. split; [exact Hfd|]. rewrite held_app, Hh. reflexivity.
        -- intros [E _]. contradiction.
        -- intros _ [E _]. contradiction.
      * split; [|split].
        -- left. split; [reflexivity|].
           rewrite held_app, Hh. cbn [fold_left held_step remove_fd].
           now rewrite Z.eqb_refl.
        -- intros [E _]. contradiction.
        -- intros _ _. reflexivity.
Qed.

Lemma Inv_construct fuel dirname lock d h :
  construct os fuel dirname lock [] = Some (d, h) ->
  Inv d h
  /\ dirname_ d = dirname
  /\ (lock = false -> Unlocked d h /\ h = [])
  /\ (Locked d h -> lock = true /\ acquisition dirname (fd_ d) h).
Proof.
  unfold construct.
  assert (I0 : Inv {| fd_ := -1; dirname_ := dirname |} []).
  { left. split; reflexivity. }
  destruct lock.
  - destruct (Lock os fuel _ []) as [[[r d'] h']|] eqn:HL; [|discriminate].
    intros H; injection H as <- <-.
    destruct (Inv_Lock _ _ _ _ _ _ I0 HL) as (I & _ & A).
    split; [exact I|split; [|split]].
    + unfold Lock, LockDirectory in HL. cbn [fd_ dirname_ Z.eqb Pos.eqb] in HL.
      destruct (sys_open os dirname _ []) as [[e|n] h1].
      * destruct (cerr _ h1). now injection HL as _ <- _.
      * destruct (flock_retry os fuel _ _ h1); [|discriminate].
        now injection HL as _ <- _.
    + discriminate.
    + intros L. split; [reflexivity|].
      destruct (A (conj eq_refl eq_refl) L) as (es & -> & Hes). exact Hes.
  - intros H; injection H as <- <-.
    split; [exact I0|split; [reflexivity|split]].
    + intros _. split; [split|]; reflexivity.
    + intros [N _]. contradiction.
Qed.

Lemma reachable_Inv d h : reachable os d h -> Inv d h.
Proof.
  induction 1 as [fuel dirname lock d h H | fuel d h r d' h' _ IH H
                 | d h r d' h' _ IH H].
  - apply (Inv_construct _ _ _ _ _ H).
  - apply (Inv_Lock _ _ _ _ _ _ IH H).
  - apply (Inv_Unlock _ _ _ _ _ IH H).
Qed.

End InvariantFacts.

Section DirectoryLockClaims.

Import DirectoryLock Hosts.

(** C1, as the code has it. When [open] on the directory fails, for whatever
    reason, [Lock] on an unlocked instance writes one line to the error
    stream and returns false at once, the instance still unlocked: the
    history gains the failed [open] and the log line, no sleep and no second
    attempt. This holds with no attempt at the lock allowed at all
    ([fuel] is arbitrary). *)
Theorem Lock_open_failure_returns_false
  (os : OS) (fuel : nat) (d : t) (h : trace) (e : errno_t) :
  fd_ d = -1 ->
  os_open os h (c_str (dirname_ d)) (Z.lor O_RDONLY O_NOCTTY) = inl e ->
  exists d' h',
    Lock os fuel d h = Some (false, d', h')
    /\ d' = d /\ fd_ d' = -1
    /\ h' = (h ++ [EvOpen (c_str (dirname_ d)) (Z.lor O_RDONLY O_NOCTTY) (inl e);
                   EvCerr ("Unable to open directory for locking: "
                             ++ dirname_ d ++ ". Error: " ++ strerror os e
                             ++ endl)])%list.
Proof.
  intros Hfd Ho. exists d. eexists. split; [|split; [|split]].
  - apply (Lock_open_refused os fuel d h e Hfd Ho).
  - reflexivity.
  - exact Hfd.
  - reflexivity.
Qed.

Lemma Lock_open_failure_returns_false_witness :
  exists d' h',
    Lock nothing 0 {| fd_ := -1; dirname_ := plot_dir |} [] = Some (false, d', h')
    /\ d' = {| fd_ := -1; dirname_ := plot_dir |} /\ fd_ d' = -1
    /\ h' = [EvOpen plot_dir 256 (inl ENOENT);
             EvCerr ("Unable to open directory for locking: /tmp/plot"
                       ++ ". Error: No such file or directory" ++ endl)].
Proof.
  apply (Lock_open_failure_returns_false nothing 0
           {| fd_ := -1; dirname_ := plot_dir |} [] ENOENT);
    reflexivity.
Defined.

(** C1, as the claim words it, fails: on a host where the directory does
    not exist, [Lock] on an unlocked instance returns, with false and the
    instance still unlocked, and its history holds no sleep. *)
Lemma Lock_open_failure_not_retried :
  fd_ {| fd_ := -1; dirname_ := plot_dir |} = -1
  /\ os_open nothing [] (c_str plot_dir) (Z.lor O_RDONLY O_NOCTTY) = inl ENOENT
  /\ Lock nothing 0 {| fd_ := -1; dirname_ := plot_dir |} [] =
       Some (false, {| fd_ := -1; dirname_ := plot_dir |},
             [EvOpen plot_dir 256 (inl ENOENT);
              EvCerr ("Unable to open directory for locking: /tmp/plot"
                        ++ ". Error: No such file or directory" ++ endl)])
  /\ ~ (forall (os : OS) (fuel : nat) (d : t) (h : trace) (e : errno_t),
          fd_ d = -1 ->
          os_open os h (c_str (dirname_ d)) (Z.lor O_RDONLY O_NOCTTY) = inl e ->
          forall r d' h',
            Lock os fuel d h = Some (r, d', h') -> fd_ d' <> -1).
Proof.
  repeat split.
  intros C.
  apply (C nothing 0%nat {| fd_ := -1; dirname_ := plot_dir |} [] ENOENT
           eq_refl eq_refl false _ _ eq_refl).
  reflexivity.
Qed.

(** Under contention [Lock] waits: on a host that refuses the lock once,
    one attempt is not enough and two are. *)
Example Lock_contended :
  Lock (disk "1" 1 false) 1 unlocked_plot [] = None
  /\ Lock (disk "1" 1 false) 2 unlocked_plot [] =
       Some (true, locked_plot, acquired_plot).
Proof. split; reflexivity. Qed.

(** C7. [Lock] on a locked instance returns true, leaves the instance and
    its descriptor as they are and calls nothing; a second [Lock] right
    after it does the same. *)
Theorem Lock_when_locked (os : OS) (fuel : nat) (d : t) (h : trace) :
  fd_ d <> -1 ->
  Lock os fuel d h = Some (true, d, h)
  /\ match Lock os fuel d h with
     | Some (_, d1, h1) => Lock os fuel d1 h1
     | None => None
     end = Some (true, d, h).
Proof.
  intros H. rewrite !(Lock_locked os fuel d h H). split; reflexivity.
Qed.

Lemma Lock_when_locked_witness :
  Lock (disk "1" 5 false) 0 {| fd_ := 3; dirname_ := plot_dir |} [] =
    Some (true, {| fd_ := 3; dirname_ := plot_dir |}, [])
  /\ match Lock (disk "1" 5 false) 0 {| fd_ := 3; dirname_ := plot_dir |} [] with
     | Some (_, d1, h1) => Lock (disk "1" 5 false) 0 d1 h1
     | None => None
     end = Some (true, {| fd_ := 3; dirname_ := plot_dir |}, []).
Proof.
  apply (Lock_when_locked (disk "1" 5 false) 0
           {| fd_ := 3; dirname_ := plot_dir |} []).
  discriminate.
Defined.

(** C8. [Unlock] on an unlocked instance returns false, changes nothing and
    calls nothing; and after an [Unlock] that returned true the instance is
    unlocked, so that a second [Unlock] right after it returns false. *)
Theorem Unlock_when_unlocked (os : OS) (d : t) (h : trace) :
  (fd_ d = -1 -> Unlock os d h = (false, d, h))
  /\ (forall d' h',
        Unlock os d h = (true, d', h') ->
        fd_ d' = -1 /\ Unlock os d' h' = (false, d', h')).
Proof.
  split.
  - apply Unlock_unlocked.
  - intros d' h' H.
    assert (E : fd_ d' = -1).
    { unfold Unlock in H. destruct (fd_ d =? -1); [discriminate|].
      destruct (UnlockDirectory os (fd_ d) (dirname_ d) h) as [[|] h1];
        cbn [negb] in H; [|discriminate].
      now injection H as <- _. }
    split; [exact E|]. apply Unlock_unlocked, E.
Qed.

Lemma Unlock_when_unlocked_witness :
  Unlock (disk "1" 0 false) {| fd_ := -1; dirname_ := plot_dir |} [] =
    (false, {| fd_ := -1; dirname_ := plot_dir |}, [])
  /\ Unlock (disk "1" 0 false) {| fd_ := 3; dirname_ := plot_dir |} [] =
       (true, {| fd_ := -1; dirname_ := plot_dir |}, release 3)
  /\ fd_ {| fd_ := -1; dirname_ := plot_dir |} = -1
  /\ Unlock (disk "1" 0 false) {| fd_ := -1; dirname_ := plot_dir |} (release 3) =
       (false, {| fd_ := -1; dirname_ := plot_dir |}, release 3).
Proof.
  split; [|split; [reflexivity|]].
  - apply (proj1 (Unlock_when_unlocked (disk "1" 0 false)
                    {| fd_ := -1; dirname_ := plot_dir |} [])).
    reflexivity.
  - apply (proj2 (Unlock_when_unlocked (disk "1" 0 false)
                    {| fd_ := 3; dirname_ := plot_dir |} [])).
    reflexivity.
Defined.

(** C9. [Unlock] on a locked instance: when the flock call that drops the
    lock fails, or when it succeeds and the close call fails, [Unlock]
    logs, returns false and leaves the instance as it was, the same
    descriptor recorded; when both calls succeed it returns true and the
    instance is unlocked; and it returns true in no other case. *)
Theorem Unlock_when_locked (os : OS) (d : t) (h : trace) :
  fd_ d <> -1 ->
  (forall e,
     os_flock os h (fd_ d) LOCK_UN = inl e ->
     Unlock os d h =
       (false, d,
        (h ++ [EvFlock (fd_ d) LOCK_UN (inl e);
               EvCerr ("Failed to unlock the directory: " ++ dirname_ d
                         ++ ". Error: " ++ strerror os e ++ endl)])%list))
  /\ (forall e,
        os_flock os h (fd_ d) LOCK_UN = inr tt ->
        os_close os (h ++ [EvFlock (fd_ d) LOCK_UN (inr tt)])%list (fd_ d)
          = inl e ->
        Unlock os d h =
          (false, d,
           (h ++ [EvFlock (fd_ d) LOCK_UN (inr tt); EvClose (fd_ d) (inl e);
                  EvCerr ("Failed to close the directory during unlocking: "
                            ++ dirname_ d ++ ". Error: " ++ strerror os e
                            ++ endl)])%list))
  /\ (os_flock os h (fd_ d) LOCK_UN = inr tt ->
      os_close os (h ++ [EvFlock (fd_ d) LOCK_UN (inr tt)])%list (fd_ d)
        = inr tt ->
      Unlock os d h =
        (true, {| fd_ := -1; dirname_ := dirname_ d |},
         (h ++ release (fd_ d))%list))
  /\ (forall d' h',
        Unlock os d h = (true, d', h') ->
        os_flock os h (fd_ d) LOCK_UN = inr tt
        /\ os_close os (h ++ [EvFlock (fd_ d) LOCK_UN (inr tt)])%list (fd_ d)
             = inr tt
        /\ fd_ d' = -1).
Proof.
  intros H. pose proof (Unlock_locked_cases os d h H) as C.
  split; [|split; [|split]].
  - intros e E. now rewrite E in C.
  - intros e E1 E2. now rewrite E1, E2 in C.
  - intros E1 E2. now rewrite E1, E2 in C.
  - intros d' h' U.
    destruct (os_flock os h (fd_ d) LOCK_UN) as [e|[]];
      [rewrite C in U; discriminate|].
    destruct (os_close os _ (fd_ d)) as [e|[]];
      rewrite C in U; [discriminate|].
    injection U as <- _. repeat split.
Qed.

Lemma Unlock_when_locked_witness :
  Unlock nothing {| fd_ := 3; dirname_ := plot_dir |} [] =
    (false, {| fd_ := 3; dirname_ := plot_dir |},
     [EvFlock 3 LOCK_UN (inl ENOENT);
      EvCerr ("Failed to unlock the directory: /tmp/plot"
                ++ ". Error: No such file or directory" ++ endl)])
  /\ Unlock (disk "1" 0 true) {| fd_ := 3; dirname_ := plot_dir |} [] =
       (false, {| fd_ := 3; dirname_ := plot_dir |},
        [EvFlock 3 LOCK_UN (inr tt); EvClose 3 (inl EIO);
         EvCerr ("Failed to close the directory during unlocking: /tmp/plot"
                   ++ ". Error: Input/output error" ++ endl)])
  /\ Unlock (disk "1" 0 false) {| fd_ := 3; dirname_ := plot_dir |} [] =
       (true, {| fd_ := -1; dirname_ := plot_dir |}, release 3)
  /\ (os_flock (disk "1" 0 false) [] 3 LOCK_UN = inr tt
      /\ os_close (disk "1" 0 false) [EvFlock 3 LOCK_UN (inr tt)] 3 = inr tt
      /\ fd_ {| fd_ := -1; dirname_ := plot_dir |} = -1).
Proof.
  assert (N : (3 : Z) <> -1) by discriminate.
  split; [|split; [|split]].
  - apply (proj1 (Unlock_when_locked nothing
                    {| fd_ := 3; dirname_ := plot_dir |} [] N) ENOENT).
    reflexivity.
  - apply (proj1 (proj2 (Unlock_when_locked (disk "1" 0 true)
                           {| fd_ := 3; dirname_ := plot_dir |} [] N)) EIO);
      reflexivity.
  - apply (proj1 (proj2 (proj2 (Unlock_when_locked (disk "1" 0 false)
                                  {| fd_ := 3; dirname_ := plot_dir |} [] N))));
      reflexivity.
  - apply (proj2 (proj2 (proj2 (Unlock_when_locked (disk "1" 0 false)
                                  {| fd_ := 3; dirname_ := plot_dir |} [] N)))
             {| fd_ := -1; dirname_ := plot_dir |} (release 3)).
    reflexivity.
Defined.

(** C10. An instance is always either unlocked, with [fd_] equal to [-1]
    and no descriptor held, or locked, with exactly the descriptor [fd_]
    held, never both. The constructor (with or without [lock]) establishes
    this, and [Lock], [Unlock] and the destructor keep it. An instance
    becomes locked only in [Lock] (or the constructor with [lock]), by an
    acquisition: the directory opened and the lock granted on it. It becomes
    unlocked only in [Unlock] or the destructor, by a release: the lock
    dropped and the descriptor closed. *)
Theorem DirectoryLock_invariant (os : OS) :
  (forall fuel dirname lock d h,
     construct os fuel dirname lock [] = Some (d, h) ->
     Inv d h
     /\ (lock = false -> Unlocked d h)
     /\ (Locked d h -> lock = true /\ acquisition dirname (fd_ d) h))
  /\ (forall fuel d h r d' h',
        Inv d h -> Lock os fuel d h = Some (r, d', h') ->
        Inv d' h'
        /\ (Locked d h -> Locked d' h')
        /\ (Unlocked d h -> Locked d' h' ->
            exists es,
              h' = (h ++ es)%list /\ acquisition (dirname_ d) (fd_ d') es))
  /\ (forall d h r d' h',
        Inv d h -> Unlock os d h = (r, d', h') ->
        Inv d' h'
        /\ (Unlocked d h -> Unlocked d' h')
        /\ (Locked d h -> Unlocked d' h' ->
            h' = (h ++ release (fd_ d))%list))
  /\ (forall d h d' h',
        Inv d h -> destroy os d h = (d', h') ->
        Inv d' h'
        /\ (Unlocked d h -> Unlocked d' h')
        /\ (Locked d h -> Unlocked d' h' ->
            h' = (h ++ release (fd_ d))%list))
  /\ (forall d h,
        reachable os d h -> Inv d h /\ ~ (Unlocked d h /\ Locked d h)).
Proof.
  split; [|split; [|split; [|split]]].
  - intros fuel dirname lock d h H.
    destruct (Inv_construct os _ _ _ _ _ H) as (I & _ & U & L).
    split; [exact I|split; [|exact L]].
    intros E. apply (U E).
  - intros fuel d h r d' h' I H.
    destruct (Inv_Lock os _ _ _ _ _ _ I H) as (I' & L & A).
    split; [exact I'|split; [|exact A]].
    intros HL. destruct (L HL) as [-> ->]. exact HL.
  - intros d h r d' h' I H.
    destruct (Inv_Unlock os _ _ _ _ _ I H) as (I' & U & R).
    split; [exact I'|split; [|exact R]].
    intros HU. destruct (U HU) as [-> ->]. exact HU.
  - intros d h d' h' I H. unfold destroy in H.
    destruct (Unlock os d h) as [[r d1] h1] eqn:E. injection H as <- <-.
    destruct (Inv_Unlock os _ _ _ _ _ I E) as (I' & U & R).
    split; [exact I'|split; [|exact R]].
    intros HU. destruct (U HU) as [-> ->]. exact HU.
  - intros d h R. split; [apply (reachable_Inv os _ _ R)|].
    intros [[E _] [N _]]. contradiction.
Qed.
Lemma DirectoryLock_invariant_witness :
  construct (disk "1" 1 false) 2 plot_dir true [] =
    Some (locked_plot, acquired_plot)
  /\ (Inv locked_plot acquired_plot
      /\ acquisition plot_dir 3 acquired_plot)
  /\ Lock (disk "1" 1 false) 2 unlocked_plot [] =
       Some (true, locked_plot, acquired_plot)
  /\ (exists es,
        acquired_plot = ([] ++ es)%list /\ acquisition plot_dir 3 es)
  /\ Unlock (disk "1" 1 false) locked_plot acquired_plot =
       (true, unlocked_plot, (acquired_plot ++ release 3)%list)
  /\ Inv unlocked_plot (acquired_plot ++ release 3)%list
  /\ destroy (disk "1" 1 false) locked_plot acquired_plot =
       (unlocked_plot, (acquired_plot ++ release 3)%list)
  /\ Inv unlocked_plot (acquired_plot ++ release 3)%list
  /\ Inv unlocked_plot [].
Proof.
  pose proof (DirectoryLock_invariant (disk "1" 1 false))
    as (C & L & U & D & R).
  assert (HL : Locked locked_plot acquired_plot)
    by (split; [discriminate|reflexivity]).
  assert (HU : Unlocked unlocked_plot []) by (split; reflexivity).
  split; [reflexivity|].
  split.
  { destruct (C 2%nat plot_dir true locked_plot acquired_plot eq_refl)
      as (I & _ & A).
    split; [exact I|]. apply (A HL). }
  split; [reflexivity|].
  split.
  { destruct (L 2%nat unlocked_plot [] true locked_plot acquired_plot
                (or_introl HU) eq_refl) as (_ & _ & A).
    apply (A HU HL). }
  split; [reflexivity|].
  split.
  { apply (U locked_plot acquired_plot true unlocked_plot
             (acquired_plot ++ release 3)%list (or_intror HL) eq_refl). }
  split; [reflexivity|].
  split.
  { apply (D locked_plot acquired_plot unlocked_plot
             (acquired_plot ++ release 3)%list (or_intror HL) eq_refl). }
  apply (R unlocked_plot []).
  apply (reach_construct (disk "1" 1 false) 0 plot_dir false). reflexivity.
Defined.

End DirectoryLockClaims.

(** * Further properties *)

(** ** DiskUtil: what the classifier looks at, how failures travel *)

Section DiskUtilMore.

Import DiskUtil History Hosts.

Variable os : OS.

Lemma prefix_empty (s : string) : prefix "" s = true.
Proof. now destruct s. Qed.

(** Cutting the content at its first newline does not change whether it
    starts with ['0']. *)
Lemma prefix_zero_getline (content : string) :
  prefix "0" (getline content) = prefix "0" content.
Proof.
  destruct content as [|c r]; [reflexivity|].
  cbn [getline]. destruct (Ascii.eqb_spec c LF) as [->|N]; [reflexivity|].
  cbn [prefix]. destruct (ascii_dec "0"%char c); [|reflexivity].
  now rewrite !prefix_empty.
Qed.

Lemma IsParallelWritingPreferredForDevice_run dev h :
  IsParallelWritingPreferredForDevice os dev h =
    (match os_ifstream os h (c_str (rotational_filename dev)) with
     | inl e =>
         inl (runtime_error
                ("Unable to open " ++ rotational_filename dev
                   ++ " for reading: " ++ strerror os e))
     | inr content => inr (prefix "0" content)
     end,
     (h ++ [EvIfstreamOpen (c_str (rotational_filename dev))
              (os_ifstream os h (c_str (rotational_filename dev)))])%list).
Proof.
  unfold IsParallelWritingPreferredForDevice, bind, ifstream_open, ret.
  destruct (os_ifstream os h _) as [e|content]; [reflexivity|].
  rewrite front_zero_prefix, prefix_zero_getline.
  now destruct (prefix "0" content).
Qed.


End DiskUtilMore.

Section DiskUtilMoreFacts.

Import DiskUtil History Hosts.

Lemma lacks_colon_digits (u : Decimal.uint) :
  lacks ":" (NilEmpty.string_of_uint u) = true.
Proof. induction u; simpl; auto. Qed.

Lemma lacks_colon_decimal (n : N) : lacks ":" (decimal n) = true.
Proof.
  unfold decimal, NilZero.string_of_uint.
  destruct (N.to_uint n) eqn:E; try reflexivity;
    rewrite <- E; apply lacks_colon_digits.
Qed.

(** Two strings free of [c], each followed by [c] and a rest, are equal as
    wholes only if they agree part by part. *)
Lemma split_at_first (c : ascii) (a a' b b' : string) :
  lacks c a = true -> lacks c a' = true ->
  a ++ String c b = a' ++ String c b' -> a = a' /\ b = b'.
Proof.
  revert a'. induction a as [|x a IH]; intros [|x' a'] La La' H;
    cbn [append lacks] in *.
  - injection H as ->. split; reflexivity.
  - injection H as <- _. rewrite Ascii.eqb_refl in La'. discriminate.
  - injection H as -> _. rewrite Ascii.eqb_refl in La. discriminate.
  - injection H as -> H.
    apply andb_prop in La, La'.
    destruct (IH a' (proj2 La) (proj2 La') H) as [-> ->].
    split; reflexivity.
Qed.

Lemma to_uint_not_nil (n : N) : N.to_uint n <> Decimal.Nil.
Proof.
  destruct n as [|p]; [discriminate|]. apply DecimalPos.Unsigned.to_uint_nonnil.
Qed.

Lemma decimal_inj (n m : N) : decimal n = decimal m -> n = m.
Proof.
  unfold decimal. intros H.
  apply (f_equal NilZero.uint_of_string) in H.
  rewrite !NilZero.usu in H by apply to_uint_not_nil.
  injection H as H. now apply DecimalN.Unsigned.to_uint_inj.
Qed.


End DiskUtilMoreFacts.

Section DiskUtilExtras.

Import DiskUtil History Hosts.

(** X1. When the attribute file opens, the classifier answers by the first
    character of the file alone: true (parallel writing preferred) when the
    content starts with ['0'], false for any other content, whatever follows
    that character and wherever the first newline is. *)
Theorem IsParallelWritingPreferredForDevice_first_byte
  (os : OS) (dev : string) (h : trace) (content : string) :
  fst (ifstream_open os ("/sys/block/" ++ dev ++ "/queue/rotational") h)
    = inr content ->
  fst (IsParallelWritingPreferredForDevice os dev h) = inr (prefix "0" content).
Proof.
  rewrite IsParallelWritingPreferredForDevice_run.
  unfold ifstream_open, rotational_filename. cbn [fst].
  now intros ->.
Qed.

Lemma IsParallelWritingPreferredForDevice_first_byte_witness :
  fst (IsParallelWritingPreferredForDevice (disk "0 and more" 0 false) "sda" [])
    = inr true
  /\ fst (IsParallelWritingPreferredForDevice
            (disk (String LF "0") 0 false) "sda" []) = inr false
  /\ fst (IsParallelWritingPreferredForDevice (disk " 0" 0 false) "sda" [])
       = inr false.
Proof.
  split; [|split].
  - apply (IsParallelWritingPreferredForDevice_first_byte
             (disk "0 and more" 0 false) "sda" [] "0 and more").
    reflexivity.
  - apply (IsParallelWritingPreferredForDevice_first_byte
             (disk (String LF "0") 0 false) "sda" [] (String LF "0")).
    reflexivity.
  - apply (IsParallelWritingPreferredForDevice_first_byte
             (disk " 0" 0 false) "sda" [] " 0").
    reflexivity.
Defined.

(** X2. On Linux [ShouldLock] gives an answer only on evidence: whenever it
    returns a boolean, the device was resolved, the attribute file of the
    resolved name was opened, and the boolean is false exactly when the
    content of that file starts with ['0']. No failure is turned into an
    answer. *)
Theorem ShouldLock_answer_has_evidence
  (os : OS) (dir : string) (h : trace) (b : bool) :
  fst (ShouldLock os Linux dir h) = inr b ->
  exists dev h1 content,
    DeviceNameOfDirectory os dir h = (inr dev, h1)
    /\ fst (ifstream_open os ("/sys/block/" ++ dev ++ "/queue/rotational") h1)
         = inr content
    /\ b = negb (prefix "0" content).
Proof.
  destruct (DeviceNameOfDirectory os dir h) as [[x|dev] h1] eqn:D.
  - unfold ShouldLock, bind. rewrite D. discriminate.
  - rewrite (ShouldLock_Linux os _ _ _ _ D),
      IsParallelWritingPreferredForDevice_run.
    unfold ifstream_open, rotational_filename. cbn [fst].
    destruct (os_ifstream os h1 _) as [e|content] eqn:E; [discriminate|].
    intros H; injection H as <-.
    exists dev, h1, content. split; [reflexivity|split; [exact E|reflexivity]].
Qed.

Lemma ShouldLock_answer_has_evidence_witness :
  exists dev h1 content,
    DeviceNameOfDirectory (disk "0" 0 false) plot_dir [] = (inr dev, h1)
    /\ fst (ifstream_open (disk "0" 0 false)
              ("/sys/block/" ++ dev ++ "/queue/rotational") h1) = inr content
    /\ false = negb (prefix "0" content).
Proof.
  apply (ShouldLock_answer_has_evidence (disk "0" 0 false) plot_dir [] false).
  reflexivity.
Defined.

(** On Linux [ShouldLock] hands both failures on as they are: an
    exception of [DeviceNameOfDirectory] leaves [ShouldLock] unchanged, with
    no attempt at the attribute file, and so does an exception of the
    classifier. *)
Theorem ShouldLock_propagates_failures
  (os : OS) (dir : string) (h : trace) :
  (forall x h1,
     DeviceNameOfDirectory os dir h = (inl x, h1) ->
     ShouldLock os Linux dir h = (inl x, h1))
  /\ (forall dev h1 x h2,
        DeviceNameOfDirectory os dir h = (inr dev, h1) ->
        IsParallelWritingPreferredForDevice os dev h1 = (inl x, h2) ->
        ShouldLock os Linux dir h = (inl x, h2)).
Proof.
  split.
  - intros x h1 D. unfold ShouldLock, bind. now rewrite D.
  - intros dev h1 x h2 D C.
    now rewrite (ShouldLock_Linux os _ _ _ _ D), C.
Qed.

Lemma ShouldLock_propagates_failures_witness :
  ShouldLock no_sysfs Linux plot_dir [] =
    (inl (runtime_error
            "Unable to find device name for /sys/dev/block/8:0: No such file or directory"),
     [EvStat plot_dir (inr 2048);
      EvRealpath "/sys/dev/block/8:0" (inl ENOENT)])
  /\ ShouldLock linux_sysfs Linux plot_dir [] =
       (inl (runtime_error
               ("Unable to open /sys/block/" ++ sda
                  ++ "/queue/rotational for reading: No such file or directory")),
        [EvStat plot_dir (inr 2048);
         EvRealpath "/sys/dev/block/8:0" (inr sda);
         EvIfstreamOpen ("/sys/block/" ++ sda ++ "/queue/rotational")
           (inl ENOENT)]).
Proof.
  split.
  - apply (proj1 (ShouldLock_propagates_failures no_sysfs plot_dir [])).
    reflexivity.
  - apply (proj2 (ShouldLock_propagates_failures linux_sysfs plot_dir [])
             sda [EvStat plot_dir (inr 2048);
                  EvRealpath "/sys/dev/block/8:0" (inr sda)]);
      reflexivity.
Defined.


(** X4. The sysfs entry [DeviceNameOfDirectory] resolves tells the device
    numbers apart: two devices get the same [/sys/dev/block/<major>:<minor>]
    only if they have the same major and the same minor number. *)
Theorem block_entry_inj (os : OS) (dev1 dev2 : Z) :
  block_entry os dev1 = block_entry os dev2 ->
  major os dev1 = major os dev2 /\ minor os dev1 = minor os dev2.
Proof.
  unfold block_entry. intros H.
  apply append_cancel_l in H.
  apply split_at_first in H; try apply lacks_colon_decimal.
  destruct H as [M m]. split; now apply decimal_inj.
Qed.

Lemma block_entry_inj_witness :
  major nothing 2048 = major nothing (2048 + 2 ^ 64)
  /\ minor nothing 2048 = minor nothing (2048 + 2 ^ 64).
Proof.
  apply (block_entry_inj nothing 2048 (2048 + 2 ^ 64)). reflexivity.
Defined.

End DiskUtilExtras.

(** ** DirectoryLock: waiting, failing, and what a history holds *)

Section DirectoryLockMoreFacts.

Import DirectoryLock History.

Variable os : OS.

Lemma sleeps_app (a b : trace) : sleeps (a ++ b)%list = (sleeps a ++ sleeps b)%list.
Proof. apply flat_map_app. Qed.

Lemma opened_app (a b : trace) : opened (a ++ b)%list = (opened a ++ opened b)%list.
Proof. apply flat_map_app. Qed.

Lemma refusals_app (a b : trace) :
  refusals (a ++ b)%list = (refusals a + refusals b)%nat.
Proof. unfold refusals. now rewrite filter_app, length_app. Qed.

Lemma waiting_opens_nothing (es : trace) :
  forallb is_waiting es = true -> opened es = [].
Proof.
  induction es as [|e es IH]; [reflexivity|].
  cbn [forallb]. intros H. apply andb_prop in H. destruct H as [He Hes].
  destruct e; try discriminate; cbn; auto.
Qed.

(** The loop, in full: when it ends, it has appended rounds of waiting and
    then the granted attempt; each refusal was followed by one sleep of 60
    seconds, and there were fewer refusals than attempts allowed. *)
Lemma flock_retry_waits fuel dir_fd dirname :
  forall h h', flock_retry os fuel dir_fd dirname h = Some h' ->
  exists mid,
    h' = (h ++ mid ++ [EvFlock dir_fd (Z.lor LOCK_EX LOCK_NB) (inr tt)])%list
    /\ forallb is_waiting mid = true
    /\ sleeps mid = repeat 60 (refusals mid)
    /\ (refusals mid < fuel)%nat.
Proof.
  induction fuel as [|fuel IH]; intros h h' H; [discriminate|].
  destruct (os_flock os h dir_fd (Z.lor LOCK_EX LOCK_NB)) as [e|u] eqn:E.
  - destruct (flock_retry_refused os fuel dir_fd dirname h e E) as (n & Hn & Hk).
    rewrite Hn in H. apply IH in H. destruct H as (mid & -> & W & S & R).
    exists ([EvFlock dir_fd (Z.lor LOCK_EX LOCK_NB) (inl e); n; EvSleep 60]
              ++ mid)%list.
    split; [now rewrite <- !app_assoc|].
    rewrite sleeps_app, refusals_app, S.
    destruct Hk as [->| ->]; cbn; (split; [exact W|split; [reflexivity|lia]]).
  - rewrite (flock_retry_granted os fuel dir_fd dirname h u E) in H.
    injection H as <-. exists []. cbn. repeat split; lia.
Qed.

(** A lock that is refused at every attempt is never obtained, however many
    attempts are allowed. *)
Lemma flock_retry_refused_forever fuel dir_fd dirname :
  refuses_lock os dir_fd ->
  forall h, flock_retry os fuel dir_fd dirname h = None.
Proof.
  intros R. induction fuel as [|fuel IH]; intros h; [reflexivity|].
  destruct (R h) as [e E].
  destruct (flock_retry_refused os fuel dir_fd dirname h e E) as (n & -> & _).
  apply IH.
Qed.

(** What one call of [Lock] appends to the history. *)
Lemma Lock_history fuel d h r d' h' :
  Lock os fuel d h = Some (r, d', h') ->
  exists es,
    h' = (h ++ es)%list
    /\ dirname_ d' = dirname_ d
    /\ sleeps es = repeat 60 (refusals es)
    /\ (refusals es <= fuel)%nat
    /\ (opened es = []
        \/ opened es = [(c_str (dirname_ d), Z.lor O_RDONLY O_NOCTTY)]).
Proof.
  intros HL. destruct (Z.eq_dec (fd_ d) (-1)) as [Hfd|Hfd].
  - destruct (os_open os h (c_str (dirname_ d)) (Z.lor O_RDONLY O_NOCTTY))
      as [e|n] eqn:Ho.
    + rewrite (Lock_open_refused os fuel d h e Hfd Ho) in HL.
      injection HL as <- <- <-. eexists; split; [reflexivity|].
      cbn. repeat split; try lia. now right.
    + unfold Lock, LockDirectory, sys_open in HL. rewrite Hfd, Ho in HL.
      cbn [Z.eqb Pos.eqb] in HL.
      destruct (flock_retry os fuel (Z.of_N n) (dirname_ d) _) as [h2|] eqn:E;
        [|discriminate].
      injection HL as <- <- <-.
      apply flock_retry_waits in E. destruct E as (mid & -> & W & S & R).
      exists (EvOpen (c_str (dirname_ d)) (Z.lor O_RDONLY O_NOCTTY) (inr n)
                :: mid ++ [EvFlock (Z.of_N n) (Z.lor LOCK_EX LOCK_NB) (inr tt)])%list.
      split; [now rewrite <- app_assoc|].
      split; [reflexivity|].
      change (EvOpen ?a ?b ?c :: ?l)%list with ([EvOpen a b c] ++ l)%list.
      rewrite !sleeps_app, !refusals_app, !opened_app, S,
        (waiting_opens_nothing mid W).
      cbn. rewrite app_nil_r, Nat.add_0_r. repeat split; try lia. now right.
  - rewrite (Lock_locked os fuel d h Hfd) in HL. injection HL as <- <- <-.
    exists []. rewrite app_nil_r. cbn. repeat split; try lia. now left.
Qed.

(** What one call of [Unlock] appends to the history. *)
Lemma Unlock_history d h r d' h' :
  Unlock os d h = (r, d', h') ->
  exists es,
    h' = (h ++ es)%list
    /\ dirname_ d' = dirname_ d
    /\ (List.length es <= 3)%nat
    /\ sleeps es = [] /\ opened es = [].
Proof.
  intros HU. destruct (Z.eq_dec (fd_ d) (-1)) as [Hfd|Hfd].
  - rewrite (Unlock_unlocked os d h Hfd) in HU. injection HU as <- <- <-.
    exists []. rewrite app_nil_r. cbn. repeat split; lia.
  - pose proof (Unlock_locked_cases os d h Hfd) as C.
    destruct (os_flock os h (fd_ d) LOCK_UN) as [e|u].
    + rewrite C in HU. injection HU as <- <- <-.
      eexists; split; [reflexivity|]. cbn. repeat split; lia.
    + destruct (os_close os _ (fd_ d)) as [e|u'];
        rewrite C in HU; injection HU as <- <- <-;
        (eexists; split; [reflexivity|]); cbn; repeat split; lia.
Qed.

End DirectoryLockMoreFacts.

Section UncontendedFacts.

Import DirectoryLock History.

Variable os : OS.
Hypothesis free : uncontended os.

(** On an uncontended host [Lock] takes the lock at the first attempt. *)
Lemma Lock_uncontended d h :
  fd_ d = -1 ->
  exists n,
    Lock os 1 d h =
      Some (true, {| fd_ := Z.of_N n; dirname_ := dirname_ d |},
            (h ++ [EvOpen (c_str (dirname_ d)) (Z.lor O_RDONLY O_NOCTTY) (inr n);
                   EvFlock (Z.of_N n) (Z.lor LOCK_EX LOCK_NB) (inr tt)])%list).
Proof.
  intros Hfd. destruct free as (O & F & _).
  destruct (O h (c_str (dirname_ d)) (Z.lor O_RDONLY O_NOCTTY)) as [n Hn].
  exists n. unfold Lock, LockDirectory, sys_open. rewrite Hfd, Hn.
  cbn [Z.eqb Pos.eqb].
  rewrite (flock_retry_granted os 0 _ _ _ tt (F _ _ _)).
  cbn [fd_]. rewrite <- app_assoc.
  destruct (Z.of_N n =? -1) eqn:E; [apply Z.eqb_eq in E; lia|reflexivity].
Qed.

(** On an uncontended host [Unlock] releases what is held. *)
Lemma Unlock_uncontended d h :
  fd_ d <> -1 ->
  Unlock os d h =
    (true, {| fd_ := -1; dirname_ := dirname_ d |}, (h ++ release (fd_ d))%list).
Proof.
  intros Hfd. destruct free as (_ & F & C).
  pose proof (Unlock_locked_cases os d h Hfd) as U.
  rewrite (F h (fd_ d) LOCK_UN) in U. now rewrite C in U.
Qed.

End UncontendedFacts.

Section DirectoryLockExtras.

Import DirectoryLock History Hosts.

(** X5. The boolean [Lock] returns tells the state it leaves: true exactly
    when the instance holds a descriptor afterwards. It is false only for an
    unlocked instance whose directory could not be opened; a lock held
    elsewhere, or any other refusal of flock, never makes [Lock] return
    false. *)
Theorem Lock_false_only_on_open_failure
  (os : OS) (fuel : nat) (d : t) (h : trace) (r : bool) (d' : t) (h' : trace) :
  Lock os fuel d h = Some (r, d', h') ->
  (r = true <-> fd_ d' <> -1)
  /\ (r = false ->
      fd_ d = -1 /\ d' = d
      /\ exists e,
          os_open os h (c_str (dirname_ d)) (Z.lor O_RDONLY O_NOCTTY) = inl e).
Proof.
  intros HL. destruct (Z.eq_dec (fd_ d) (-1)) as [Hfd|Hfd].
  - destruct (os_open os h (c_str (dirname_ d)) (Z.lor O_RDONLY O_NOCTTY))
      as [e|n] eqn:Ho.
    + rewrite (Lock_open_refused os fuel d h e Hfd Ho) in HL.
      injection HL as <- <- <-. split.
      * split; [discriminate|]. intros N; contradiction.
      * intros _. split; [exact Hfd|split; [reflexivity|]]. now exists e.
    + destruct (Lock_open_answered os fuel d h n r d' h' Hfd Ho HL)
        as (-> & -> & _).
      cbn [fd_]. split; [|discriminate].
      split; [intros _; lia|reflexivity].
  - rewrite (Lock_locked os fuel d h Hfd) in HL. injection HL as <- <- <-.
    split; [|discriminate]. split; [intros _; exact Hfd|reflexivity].
Qed.

Lemma Lock_false_only_on_open_failure_witness :
  ((true = true <-> fd_ locked_plot <> -1)
   /\ (true = false ->
       fd_ unlocked_plot = -1 /\ locked_plot = unlocked_plot
       /\ exists e,
           os_open (disk "1" 1 false) [] (c_str (dirname_ unlocked_plot))
             (Z.lor O_RDONLY O_NOCTTY) = inl e))
  /\ ((false = true <-> fd_ unlocked_plot <> -1)
      /\ (false = false ->
          fd_ unlocked_plot = -1 /\ unlocked_plot = unlocked_plot
          /\ exists e,
              os_open nothing [] (c_str (dirname_ unlocked_plot))
                (Z.lor O_RDONLY O_NOCTTY) = inl e)).
Proof.
  split.
  - apply (Lock_false_only_on_open_failure (disk "1" 1 false) 2 unlocked_plot
             [] true locked_plot acquired_plot).
    reflexivity.
  - apply (Lock_false_only_on_open_failure nothing 0 unlocked_plot [] false
             unlocked_plot
             [EvOpen plot_dir 256 (inl ENOENT);
              EvCerr ("Unable to open directory for locking: /tmp/plot"
                        ++ ". Error: No such file or directory" ++ endl)]).
    reflexivity.
Defined.

(** X6. [Lock] has no way out of the waiting loop but the lock itself: when
    the directory opens and flock refuses the exclusive lock at every
    attempt, with EWOULDBLOCK or with any other errno, [Lock] does not
    return, whatever number of attempts it is given. *)
Theorem Lock_never_returns_while_refused
  (os : OS) (d : t) (h : trace) (n : N) :
  fd_ d = -1 ->
  os_open os h (c_str (dirname_ d)) (Z.lor O_RDONLY O_NOCTTY) = inr n ->
  refuses_lock os (Z.of_N n) ->
  forall fuel, Lock os fuel d h = None.
Proof.
  intros Hfd Ho R fuel. unfold Lock, LockDirectory, sys_open.
  rewrite Hfd, Ho. cbn [Z.eqb Pos.eqb].
  now rewrite (flock_retry_refused_forever os fuel _ _ R).
Qed.

Lemma Lock_never_returns_while_refused_witness :
  Lock jammed 1000 unlocked_plot [] = None.
Proof.
  apply (Lock_never_returns_while_refused jammed unlocked_plot [] 3%N).
  - reflexivity.
  - reflexivity.
  - intros h. exists ENOLCK. reflexivity.
Defined.

(** X7. What a returning [Lock] costs: it opens the directory at most once,
    with [O_RDONLY | O_NOCTTY] and under the name the instance was given, and
    it sleeps once for 60 seconds after each refused flock and at no other
    time; the refusals are no more than the attempts it was allowed. *)
Theorem Lock_waits_sixty_per_refusal
  (os : OS) (fuel : nat) (d : t) (h : trace) (r : bool) (d' : t) (h' : trace) :
  Lock os fuel d h = Some (r, d', h') ->
  exists es,
    h' = (h ++ es)%list
    /\ sleeps es = repeat 60 (refusals es)
    /\ (refusals es <= fuel)%nat
    /\ (opened es = []
        \/ opened es = [(c_str (dirname_ d), Z.lor O_RDONLY O_NOCTTY)]).
Proof.
  intros HL.
  destruct (Lock_history os fuel d h r d' h' HL) as (es & E & _ & S & R & O).
  exists es. repeat split; assumption.
Qed.

Lemma Lock_waits_sixty_per_refusal_witness :
  exists es,
    acquired_plot = ([] ++ es)%list
    /\ sleeps es = repeat 60 (refusals es)
    /\ (refusals es <= 2)%nat
    /\ (opened es = []
        \/ opened es = [(c_str (dirname_ unlocked_plot), Z.lor O_RDONLY O_NOCTTY)]).
Proof.
  apply (Lock_waits_sixty_per_refusal (disk "1" 1 false) 2 unlocked_plot []
           true locked_plot acquired_plot).
  reflexivity.
Defined.

(** X8. Lock, unlock, lock again: on a host where nobody else holds
    anything, each of the three calls returns true at its first attempt.
    The instance is back to its unlocked self in between, and the history
    gains the open and the granted flock, the release, and a second open and
    granted flock, with no sleep anywhere. *)
Theorem Lock_Unlock_Lock_uncontended (os : OS) (d : t) (h : trace) :
  uncontended os ->
  fd_ d = -1 ->
  exists n1 n2 h1 h2 h3,
    Lock os 1 d h =
      Some (true, {| fd_ := Z.of_N n1; dirname_ := dirname_ d |}, h1)
    /\ Unlock os {| fd_ := Z.of_N n1; dirname_ := dirname_ d |} h1 = (true, d, h2)
    /\ Lock os 1 d h2 =
         Some (true, {| fd_ := Z.of_N n2; dirname_ := dirname_ d |}, h3)
    /\ h3 = (h ++ [EvOpen (c_str (dirname_ d)) (Z.lor O_RDONLY O_NOCTTY) (inr n1);
                   EvFlock (Z.of_N n1) (Z.lor LOCK_EX LOCK_NB) (inr tt);
                   EvFlock (Z.of_N n1) LOCK_UN (inr tt);
                   EvClose (Z.of_N n1) (inr tt);
                   EvOpen (c_str (dirname_ d)) (Z.lor O_RDONLY O_NOCTTY) (inr n2);
                   EvFlock (Z.of_N n2) (Z.lor LOCK_EX LOCK_NB) (inr tt)])%list.
Proof.
  intros free Hfd.
  destruct (Lock_uncontended os free d h Hfd) as [n1 L1].
  assert (N1 : fd_ {| fd_ := Z.of_N n1; dirname_ := dirname_ d |} <> -1)
    by (cbn [fd_]; lia).
  pose proof (Unlock_uncontended os free _
                (h ++ [EvOpen (c_str (dirname_ d)) (Z.lor O_RDONLY O_NOCTTY)
                         (inr n1);
                       EvFlock (Z.of_N n1) (Z.lor LOCK_EX LOCK_NB) (inr tt)])%list
                N1) as U.
  cbn [fd_ dirname_] in U. rewrite <- Hfd, t_eta in U.
  destruct (Lock_uncontended os free d
              ((h ++ [EvOpen (c_str (dirname_ d)) (Z.lor O_RDONLY O_NOCTTY)
                        (inr n1);
                      EvFlock (Z.of_N n1) (Z.lor LOCK_EX LOCK_NB) (inr tt)])
                 ++ release (Z.of_N n1))%list Hfd) as [n2 L2].
  exists n1, n2. do 3 eexists.
  split; [exact L1|split; [exact U|split; [exact L2|]]].
  unfold release. now rewrite <- !app_assoc.
Qed.

Lemma Lock_Unlock_Lock_uncontended_witness :
  exists n1 n2 h1 h2 h3,
    Lock (disk "1" 0 false) 1 unlocked_plot [] =
      Some (true, {| fd_ := Z.of_N n1; dirname_ := dirname_ unlocked_plot |}, h1)
    /\ Unlock (disk "1" 0 false)
         {| fd_ := Z.of_N n1; dirname_ := dirname_ unlocked_plot |} h1 =
         (true, unlocked_plot, h2)
    /\ Lock (disk "1" 0 false) 1 unlocked_plot h2 =
         Some (true, {| fd_ := Z.of_N n2; dirname_ := dirname_ unlocked_plot |}, h3)
    /\ h3 = ([] ++ [EvOpen (c_str (dirname_ unlocked_plot))
                      (Z.lor O_RDONLY O_NOCTTY) (inr n1);
                    EvFlock (Z.of_N n1) (Z.lor LOCK_EX LOCK_NB) (inr tt);
                    EvFlock (Z.of_N n1) LOCK_UN (inr tt);
                    EvClose (Z.of_N n1) (inr tt);
                    EvOpen (c_str (dirname_ unlocked_plot))
                      (Z.lor O_RDONLY O_NOCTTY) (inr n2);
                    EvFlock (Z.of_N n2) (Z.lor LOCK_EX LOCK_NB) (inr tt)])%list.
Proof.
  apply (Lock_Unlock_Lock_uncontended (disk "1" 0 false) unlocked_plot []).
  - split; [|split].
    + intros h p f. exists 3%N. reflexivity.
    + intros h fd op. cbn. now rewrite orb_true_r.
    + intros h fd. reflexivity.
  - reflexivity.
Defined.

(** X9. The constructor does not look at what [Lock] returned: when it is
    asked to lock and the directory cannot be opened, construction still
    completes, with one line on the error stream, and hands back an instance
    that is unlocked. *)
Theorem construct_open_failure
  (os : OS) (fuel : nat) (dirname : string) (h : trace) (e : errno_t) :
  os_open os h (c_str dirname) (Z.lor O_RDONLY O_NOCTTY) = inl e ->
  construct os fuel dirname true h =
    Some ({| fd_ := -1; dirname_ := dirname |},
          (h ++ [EvOpen (c_str dirname) (Z.lor O_RDONLY O_NOCTTY) (inl e);
                 EvCerr ("Unable to open directory for locking: " ++ dirname
                           ++ ". Error: " ++ strerror os e ++ endl)])%list).
Proof.
  intros Ho. unfold construct.
  now rewrite (Lock_open_refused os fuel {| fd_ := -1; dirname_ := dirname |}
                 h e eq_refl Ho).
Qed.

Lemma construct_open_failure_witness :
  construct nothing 0 plot_dir true [] =
    Some (unlocked_plot,
          [EvOpen plot_dir 256 (inl ENOENT);
           EvCerr ("Unable to open directory for locking: /tmp/plot"
                     ++ ". Error: No such file or directory" ++ endl)]).
Proof.
  apply (construct_open_failure nothing 0 plot_dir [] ENOENT). reflexivity.
Defined.

(** X10. An instance only ever opens its own directory: in every state an
    instance can reach, each [open] of its history was made on the name
    given to the constructor, which [dirname_] still holds, and with the
    flags [O_RDONLY | O_NOCTTY]. *)
Theorem reachable_opens_own_directory
  (os : OS) (d : t) (h : trace) :
  reachable os d h ->
  forall p f,
    In (p, f) (opened h) ->
    p = c_str (dirname_ d) /\ f = Z.lor O_RDONLY O_NOCTTY.
Proof.
  induction 1 as [fuel dirname lock d h H | fuel d h r d' h' _ IH H
                 | d h r d' h' _ IH H]; intros p f Hin.
  - unfold construct in H. destruct lock.
    + destruct (Lock os fuel _ []) as [[[r d1] h1]|] eqn:HL; [|discriminate].
      injection H as <- <-.
      destruct (Lock_history os _ _ _ _ _ _ HL) as (es & -> & D & _ & _ & O).
      cbn [app dirname_] in *. rewrite D.
      destruct O as [O|O]; rewrite O in Hin; [destruct Hin|].
      destruct Hin as [Hin|[]]. injection Hin as <- <-. split; reflexivity.
    + injection H as <- <-. destruct Hin.
  - destruct (Lock_history os _ _ _ _ _ _ H) as (es & -> & D & _ & _ & O).
    rewrite opened_app in Hin. rewrite D.
    apply in_app_or in Hin. destruct Hin as [Hin|Hin]; [now apply IH|].
    destruct O as [O|O]; rewrite O in Hin; [destruct Hin|].
    destruct Hin as [Hin|[]]. injection Hin as <- <-. split; reflexivity.
  - destruct (Unlock_history os _ _ _ _ _ H) as (es & -> & D & _ & _ & O).
    rewrite opened_app, O, app_nil_r in Hin. rewrite D. now apply IH.
Qed.

Lemma reachable_opens_own_directory_witness :
  plot_dir = c_str (dirname_ locked_plot) /\ 256 = Z.lor O_RDONLY O_NOCTTY.
Proof.
  apply (reachable_opens_own_directory (disk "1" 1 false) locked_plot
           acquired_plot).
  - apply (reach_construct (disk "1" 1 false) 2 plot_dir true). reflexivity.
  - left. reflexivity.
Defined.

(** X11. [Unlock] and the destructor try the release once and never wait.
    On an unlocked instance they call nothing. On a locked one they call
    flock(LOCK_UN) once; if it fails they log one line and stop, without
    calling close; if it succeeds they call close once, and log one line if
    that fails. There is no second attempt, no sleep and no open, [dirname_]
    stays, and the destructor leaves the members as [Unlock] does. *)
Theorem Unlock_attempts_release_once (os : OS) (d : t) (h : trace) :
  destroy os d h = (snd (fst (Unlock os d h)), snd (Unlock os d h))
  /\ dirname_ (snd (fst (Unlock os d h))) = dirname_ d
  /\ exists es,
      snd (Unlock os d h) = (h ++ es)%list
      /\ ((fd_ d = -1 /\ es = [])
          \/ (fd_ d <> -1
              /\ exists e,
                  es = [EvFlock (fd_ d) LOCK_UN (inl e);
                        EvCerr ("Failed to unlock the directory: " ++ dirname_ d
                                  ++ ". Error: " ++ strerror os e ++ endl)])
          \/ (fd_ d <> -1
              /\ exists e,
                  es = [EvFlock (fd_ d) LOCK_UN (inr tt);
                        EvClose (fd_ d) (inl e);
                        EvCerr ("Failed to close the directory during unlocking: "
                                  ++ dirname_ d ++ ". Error: " ++ strerror os e
                                  ++ endl)])
          \/ (fd_ d <> -1
              /\ es = [EvFlock (fd_ d) LOCK_UN (inr tt);
                       EvClose (fd_ d) (inr tt)])).
Proof.
  split; [unfold destroy; now destruct (Unlock os d h) as [[r d'] h']|].
  destruct (Z.eq_dec (fd_ d) (-1)) as [Hfd|Hfd].
  - rewrite (Unlock_unlocked os d h Hfd). cbn [fst snd].
    split; [reflexivity|]. exists []. rewrite app_nil_r. split; [reflexivity|].
    left. split; [exact Hfd|reflexivity].
  - pose proof (Unlock_locked_cases os d h Hfd) as C.
    destruct (os_flock os h (fd_ d) LOCK_UN) as [e|[]].
    + rewrite C. cbn [fst snd]. split; [reflexivity|].
      eexists; split; [reflexivity|].
      right; left. split; [exact Hfd|]. now exists e.
    + destruct (os_close os _ (fd_ d)) as [e|[]]; rewrite C; cbn [fst snd];
        (split; [reflexivity|]); (eexists; split; [reflexivity|]).
      * right; right; left. split; [exact Hfd|]. now exists e.
      * right; right; right. split; [exact Hfd|reflexivity].
Qed.

(** X12. A scope on an uncontended host leaks nothing: the constructor with
    [lock] returns a locked instance at the first attempt, and the destructor
    that follows leaves it unlocked, with no descriptor held. *)
Theorem scope_releases_uncontended (os : OS) (dirname : string) :
  uncontended os ->
  exists d h d' h',
    construct os 1 dirname true [] = Some (d, h)
    /\ Locked d h
    /\ destroy os d h = (d', h')
    /\ Unlocked d' h'
    /\ held h' = [].
Proof.
  intros free.
  destruct (Lock_uncontended os free {| fd_ := -1; dirname_ := dirname |} []
              eq_refl) as [n L].
  cbn [dirname_ app] in L.
  assert (HL : Locked {| fd_ := Z.of_N n; dirname_ := dirname |}
                 [EvOpen (c_str dirname) (Z.lor O_RDONLY O_NOCTTY) (inr n);
                  EvFlock (Z.of_N n) (Z.lor LOCK_EX LOCK_NB) (inr tt)]).
  { split; [cbn [fd_]; lia|reflexivity]. }
  pose proof (Unlock_uncontended os free _
                [EvOpen (c_str dirname) (Z.lor O_RDONLY O_NOCTTY) (inr n);
                 EvFlock (Z.of_N n) (Z.lor LOCK_EX LOCK_NB) (inr tt)]
                (proj1 HL)) as U.
  cbn [fd_ dirname_] in U.
  assert (HH : held ([EvOpen (c_str dirname) (Z.lor O_RDONLY O_NOCTTY) (inr n);
                      EvFlock (Z.of_N n) (Z.lor LOCK_EX LOCK_NB) (inr tt)]
                       ++ release (Z.of_N n))%list = []).
  { cbn. now rewrite Z.eqb_refl. }
  do 4 eexists. split; [unfold construct; rewrite L; reflexivity|].
  split; [exact HL|].
  split; [unfold destroy; rewrite U; reflexivity|].
  split; [split; [reflexivity|exact HH]|exact HH].
Qed.

Lemma scope_releases_uncontended_witness :
  exists d h d' h',
    construct (disk "1" 0 false) 1 plot_dir true [] = Some (d, h)
    /\ Locked d h
    /\ destroy (disk "1" 0 false) d h = (d', h')
    /\ Unlocked d' h'
    /\ held h' = [].
Proof.
  apply (scope_releases_uncontended (disk "1" 0 false) plot_dir).
  split; [|split].
  - intros h p f. exists 3%N. reflexivity.
  - intros h fd op. cbn. now rewrite orb_true_r.
  - intros h fd. reflexivity.
Defined.

End DirectoryLockExtras.

Section LivenessFacts.

Import DirectoryLock History Hosts.

Lemma count_sleeps_sleeps (h : trace) :
  count_sleeps h = List.length (sleeps h).
Proof.
  unfold count_sleeps, sleeps.
  induction h as [|e h IH]; [reflexivity|].
  destruct e; cbn; auto.
Qed.

(** The loop on a host that frees the lock after [k] sleeps: with [m] sleeps
    still to go, [m + 1] attempts return and [m] do not. *)
Lemma flock_retry_frees (os : OS) (fd : Z) (dirname : string) (k : nat) :
  frees_after os fd k ->
  forall m h,
    (List.length (sleeps h) + m = k)%nat ->
    flock_retry os m fd dirname h = None
    /\ exists h',
        flock_retry os (S m) fd dirname h = Some h'
        /\ sleeps h' = (sleeps h ++ repeat 60 m)%list.
Proof.
  intros F. induction m as [|m IH]; intros h Hk.
  - split; [reflexivity|].
    pose proof (F h) as E.
    replace (k <=? List.length (sleeps h))%nat with true in E
      by (symmetry; apply Nat.leb_le; lia).
    rewrite (flock_retry_granted os 0 fd dirname h tt E).
    eexists; split; [reflexivity|].
    rewrite sleeps_app. reflexivity.
  - pose proof (F h) as E.
    replace (k <=? List.length (sleeps h))%nat with false in E
      by (symmetry; apply Nat.leb_gt; lia).
    destruct (flock_retry_refused os m fd dirname h _ E) as (n & Hn & Hk').
    destruct (flock_retry_refused os (S m) fd dirname h _ E)
      as (n' & Hn' & Hk'').
    assert (S1 : forall x,
               (x = EvCout ("Directory locked, waiting (retrying in 1 minute): "
                              ++ dirname ++ endl)
                \/ x = EvCerr ("Unable to lock directory (retrying in 1 minute): "
                                 ++ ". Error: " ++ strerror os EWOULDBLOCK
                                 ++ endl)) ->
               sleeps (h ++ [EvFlock fd (Z.lor LOCK_EX LOCK_NB)
                               (inl EWOULDBLOCK); x; EvSleep 60])%list
               = (sleeps h ++ [60])%list).
    { intros x [->| ->]; now rewrite sleeps_app. }
    rewrite Hn, Hn'. split.
    + apply IH. rewrite (S1 n Hk'), length_app. cbn. lia.
    + destruct (IH (h ++ [EvFlock fd (Z.lor LOCK_EX LOCK_NB) (inl EWOULDBLOCK);
                          n'; EvSleep 60])%list) as (_ & h' & -> & Hs).
      * rewrite (S1 n' Hk''), length_app. cbn. lia.
      * exists h'. split; [reflexivity|].
        rewrite Hs, (S1 n' Hk''), <- app_assoc. reflexivity.
Qed.

End LivenessFacts.

Section DirectoryLockLiveness.

Import DirectoryLock History Hosts.

(** X13. [Lock] returns as soon as the lock is free: when the directory opens
    and the host refuses the lock until the caller has slept [k] times, [Lock]
    with [k + 1] attempts returns true holding the opened descriptor, having
    slept [k] times 60 seconds, and [k] attempts are not enough. *)
Theorem Lock_returns_once_free
  (os : OS) (d : t) (h : trace) (n : N) (k : nat) :
  fd_ d = -1 ->
  os_open os h (c_str (dirname_ d)) (Z.lor O_RDONLY O_NOCTTY) = inr n ->
  sleeps h = [] ->
  frees_after os (Z.of_N n) k ->
  Lock os k d h = None
  /\ exists h',
      Lock os (S k) d h =
        Some (true, {| fd_ := Z.of_N n; dirname_ := dirname_ d |}, h')
      /\ sleeps h' = repeat 60 k.
Proof.
  intros Hfd Ho Hs F.
  assert (S0 : sleeps (h ++ [EvOpen (c_str (dirname_ d))
                               (Z.lor O_RDONLY O_NOCTTY) (inr n)])%list = [])
    by (rewrite sleeps_app, Hs; reflexivity).
  destruct (flock_retry_frees os (Z.of_N n) (dirname_ d) k F k
              (h ++ [EvOpen (c_str (dirname_ d)) (Z.lor O_RDONLY O_NOCTTY)
                       (inr n)])%list)
    as (N0 & h' & E & Hh').
  { now rewrite S0. }
  unfold Lock, LockDirectory, sys_open. rewrite Hfd, Ho.
  cbn [Z.eqb Pos.eqb]. rewrite N0, E. split; [reflexivity|].
  exists h'. cbn [fd_]. split.
  - destruct (Z.of_N n =? -1) eqn:Q; [apply Z.eqb_eq in Q; lia|reflexivity].
  - now rewrite Hh', S0.
Qed.

Lemma Lock_returns_once_free_witness :
  Lock (disk "1" 1 false) 1 unlocked_plot [] = None
  /\ exists h',
      Lock (disk "1" 1 false) 2 unlocked_plot [] =
        Some (true, {| fd_ := Z.of_N 3; dirname_ := dirname_ unlocked_plot |}, h')
      /\ sleeps h' = repeat 60 1.
Proof.
  apply (Lock_returns_once_free (disk "1" 1 false) unlocked_plot [] 3%N 1).
  - reflexivity.
  - reflexivity.
  - reflexivity.
  - intros h. cbn [os_flock disk]. rewrite count_sleeps_sleeps. reflexivity.
Defined.

End DirectoryLockLiveness.
